(** * UStore Arrow Flight server: session manager, URI parameters, Arrow export

    A shallow embedding of the parts of [src/flight_server.cpp] and
    [include/ustore/arrow.h] that the specification talks about, followed by
    the properties proved about them.

    Conventions of the embedding:
    - a [std::string_view] is the [string] of its characters, positions are
      offsets from [begin()];
    - 64-bit unsigned values are [Z] with the wrap-around written out;
    - pointers are [Z] addresses, [NULL] is [0];
    - a [std::vector] used as a stack is a [list] whose last element is
      [back()];
    - the [std::unordered_map] of sessions is an association list in
      iteration order (the order matters to [std::min_element]);
    - every call of [sys_clock_t::now()] is an explicit argument;
    - C++ undefined behaviour is an explicit outcome. *)

From Stdlib Require Import ZArith List String Ascii Bool Lia.
Import ListNotations.

Local Open Scope string_scope.

(** ** Outcomes of a call *)

(** [Ret a]: the call returns [a].  [Undefined]: the call steps outside the
    C++ abstract machine (dereferences [end()], reads or writes out of
    bounds).  [Timeout]: the loop budget of the model ran out; every modelled
    loop is shown below never to produce it. *)
Inductive outcome (A : Type) : Type :=
| Ret (a : A)
| Undefined
| Timeout.

Arguments Ret {A} a.
Arguments Undefined {A}.
Arguments Timeout {A}.

Definition bind {A B : Type} (m : outcome A) (k : A -> outcome B) : outcome B :=
  match m with
  | Ret a => k a
  | Undefined => Undefined
  | Timeout => Timeout
  end.

Notation "x <- m ;; k" := (bind m (fun x => k))
  (at level 61, m at next level, right associativity).

(** ** URI parameters *)

Module Uri.

Definition string_view := string.

(** What [param_value] hands back inside the [std::optional]: either the
    default-constructed [std::string_view {}], whose [data()] is [nullptr],
    or a view into the query. *)
Inductive value_view : Type :=
| empty_view
| view (chars : string_view).

(** The view without its first [n] characters ([begin() + n]). *)
Fixpoint drop (n : nat) (s : string_view) : string_view :=
  match n, s with
  | O, _ => s
  | S _, EmptyString => EmptyString
  | S n', String _ rest => drop n' rest
  end.

(** [std::search(first, last, s_first, s_last)]: [text] is the range from
    position [pos] to the end of the view; the result is the position of the
    first occurrence of [needle], or the position of the end. *)
Fixpoint search (text needle : string_view) (pos : nat) : nat :=
  if prefix needle text then pos
  else match text with
       | EmptyString => pos
       | String _ rest => search rest needle (S pos)
       end.

(** [std::find(first, last, c) - first]. *)
Fixpoint find (text : string_view) (c : ascii) : nat :=
  match text with
  | EmptyString => 0
  | String a rest => if Ascii.eqb a c then 0 else S (find rest c)
  end.

(** The body of the [do { ... } while (true)] loop of [param_value]; [fuel]
    bounds the number of iterations. *)
Fixpoint param_value_loop (fuel : nat) (query_params param_name : string_view)
    (key_begin : nat) : outcome (option value_view) :=
  match fuel with
  | O => Timeout
  | S fuel' =>
    let key_begin := search (drop key_begin query_params) param_name key_begin in
    if key_begin =? length query_params then Ret None
    else
      let is_suffix := key_begin + length param_name =? length query_params in
      if is_suffix then Ret (Some empty_view)
      else
        (* [*(key_begin - 1)] *)
        match key_begin with
        | O => Undefined
        | S before =>
          match get before query_params with
          | None => Undefined
          | Some prev_character =>
            if negb (Ascii.eqb prev_character "?") &&
               negb (Ascii.eqb prev_character "&") &&
               negb (Ascii.eqb prev_character "/")
            then param_value_loop fuel' query_params param_name (key_begin + 1)
            else
              match get (key_begin + length param_name) query_params with
              | None => Undefined
              | Some next_character =>
                if Ascii.eqb next_character "&" then Ret (Some empty_view)
                else if Ascii.eqb next_character "=" then
                  let value_begin := key_begin + length param_name + 1 in
                  let value_end :=
                    value_begin + find (drop value_begin query_params) "&" in
                  Ret (Some (view (substring value_begin (value_end - value_begin)
                                             query_params)))
                else param_value_loop fuel' query_params param_name (key_begin + 1)
              end
          end
        end
  end%nat.

(** [param_value]: every iteration moves [key_begin] forward by at least one
    character, so one more iteration than the view has characters is enough. *)
Definition param_value (query_params param_name : string_view)
    : outcome (option value_view) :=
  param_value_loop (S (length query_params)) query_params param_name 0.

(** What a match of [param_value] rests on: the key stands at some position
    [p] of the query and either ends the query, whatever precedes it, or it
    follows one of [?], [&], [/] and is followed by [&] or [=]. *)
Definition accepted_at (q k : string) (p : nat) (v : value_view) : Prop :=
  prefix k (drop p q) = true /\
  ((p + String.length k = String.length q /\ v = empty_view) \/
   (exists b prev next,
      p = S b /\ get b q = Some prev /\
      (prev = "?" \/ prev = "&" \/ prev = "/")%char /\
      get (p + String.length k) q = Some next /\
      ((next = "&"%char /\ v = empty_view) \/
       (next = "="%char /\
        v = view (substring (p + String.length k + 1)
                            (find (drop (p + String.length k + 1) q) "&") q))))).

(** [is_query] *)
Definition is_query (uri name : string_view) : bool :=
  if (length name <? length uri)%nat
  then String.eqb (substring 0 (length name) uri) name &&
       match get (length name) uri with
       | Some c => Ascii.eqb c "?"
       | None => false
       end
  else String.eqb uri name.

(** *** Identifiers *)

Definition base_id_t := Z.

Definition ULLONG_MAX : Z := (2 ^ 64 - 1)%Z.

(** [isspace] in the C locale. *)
Definition isspace (c : ascii) : bool :=
  let n := nat_of_ascii c in
  ((n =? 32) || ((9 <=? n) && (n <=? 13)))%nat.

(** The value of a base-16 digit, either case. *)
Definition hex_digit (c : ascii) : option Z :=
  let n := Z.of_nat (nat_of_ascii c) in
  (if (48 <=? n) && (n <=? 57) then Some (n - 48)
   else if (97 <=? n) && (n <=? 102) then Some (n - 87)
   else if (65 <=? n) && (n <=? 70) then Some (n - 55)
   else None)%Z.

Fixpoint skip_space (s : string) : nat :=
  match s with
  | String c rest => if isspace c then S (skip_space rest) else 0
  | EmptyString => 0
  end.

(** The longest run of hex digits at the head of [s]: its value, not yet
    reduced to 64 bits, and its length. *)
Fixpoint hex_digits (s : string) (acc : Z) (count : nat) : Z * nat :=
  match s with
  | String c rest =>
    match hex_digit c with
    | Some d => hex_digits rest (acc * 16 + d)%Z (S count)
    | None => (acc, count)
    end
  | EmptyString => (acc, count)
  end.

(** [std::strtoull(str, &end, 16)] as ISO C describes it: white space, an
    optional sign, an optional [0x] that is followed by a digit, then the
    digits.  The result is the value and the offset of [end].  The value
    saturates at [ULLONG_MAX]; a minus sign negates it in the unsigned type.
    The character after a parameter value is [&] or the terminator of the
    URI, neither of which can continue a number, so the view's own
    characters decide the result. *)
Definition strtoull16 (str : string) : Z * nat :=
  let spaces := skip_space str in
  let s1 := drop spaces str in
  let '(negative, sign, s2) :=
    match s1 with
    | String "-" rest => (true, 1%nat, rest)
    | String "+" rest => (false, 1%nat, rest)
    | _ => (false, 0%nat, s1)
    end in
  let '(radix_prefix, s3) :=
    match s2 with
    | String "0" (String x (String d rest as digits)) =>
      if (Ascii.eqb x "x" || Ascii.eqb x "X") &&
         match hex_digit d with Some _ => true | None => false end
      then (2%nat, digits) else (0%nat, s2)
    | _ => (0%nat, s2)
    end in
  let '(value, count) := hex_digits s3 0%Z 0%nat in
  match count with
  | O => (0%Z, 0%nat)
  | _ =>
    let result :=
      (if ULLONG_MAX <? value then ULLONG_MAX
       else if negative then (- value) mod 2 ^ 64 else value)%Z in
    (result, (spaces + sign + radix_prefix + count)%nat)
  end.

(** [parse_u64_hex].  [strtoull] on the null [data()] of an empty view is a
    null-pointer read. *)
Definition parse_u64_hex (str : value_view) (default_ : base_id_t)
    : outcome base_id_t :=
  match str with
  | empty_view => Undefined
  | view chars =>
    let '(result, end_) := strtoull16 chars in
    if negb (end_ =? length chars)%nat then Ret default_ else Ret result
  end.

(** [parse_txn_id] *)
Definition parse_txn_id (str : value_view) : outcome base_id_t :=
  parse_u64_hex str 0%Z.

End Uri.

(** ** Session manager *)

Module Sessions.

Local Open Scope Z_scope.

Definition client_id_t := Z.
Definition txn_id_t := Z.

(** Handles of the engine ([ustore_transaction_t], [ustore_arena_t]) are
    pointers. *)
Definition ustore_transaction_t := Z.
Definition ustore_arena_t := Z.
Definition nullptr : Z := 0.

(** [sys_time_t]: a count of ticks of [std::chrono::system_clock]. *)
Definition sys_time_t := Z.

(** Ticks of the system clock in one millisecond: the clock of libstdc++
    ticks in nanoseconds. *)
Definition ticks_per_millisecond : Z := 1000000.

(** The error codes that the session manager passes to [log_error_m]. *)
Inductive error_kind : Type :=
| args_wrong_k
| error_unknown_k.

(** [ustore_error_t]: null ([None]) when there is no error. *)
Definition ustore_error_t := option (error_kind * string).

(** Modelled from the spec: the macro [log_error_m(c_error, kind, message)],
    which the sources at hand use but do not contain; by section 7 of the
    spec an error carries a code plus a human-readable message, and the
    macro stores them through [c_error]. *)
Definition log_error_m (kind : error_kind) (message : string) : ustore_error_t :=
  Some (kind, message).

Record session_id_t : Type := {
  client_id : client_id_t;
  txn_id : txn_id_t
}.

Definition session_is_txn (id : session_id_t) : bool :=
  negb (txn_id id =? 0).

(** [session_id_t::operator==] *)
Definition session_id_eqb (a b : session_id_t) : bool :=
  (client_id a =? client_id b) && (txn_id a =? txn_id b).

Record running_txn_t : Type := {
  txn : ustore_transaction_t;
  arena : ustore_arena_t;
  last_access : sys_time_t;
  executing : bool
}.

(** [running_txn_t {}] *)
Definition running_txn_default : running_txn_t :=
  {| txn := nullptr; arena := nullptr; last_access := 0; executing := false |}.

Definition set_executing (r : running_txn_t) (b : bool) : running_txn_t :=
  {| txn := txn r; arena := arena r; last_access := last_access r;
     executing := b |}.

Definition set_last_access (r : running_txn_t) (t : sys_time_t) : running_txn_t :=
  {| txn := txn r; arena := arena r; last_access := t;
     executing := executing r |}.

(** [client_to_txn_t]: the nodes of the hash map in iteration order. *)
Definition client_to_txn_t := list (session_id_t * running_txn_t).

(** An iterator that is not [end()]: the position of a node and the record
    [it->second] it holds. *)
Definition iterator := (nat * running_txn_t)%type.

Definition next (it : iterator) : iterator := (S (fst it), snd it).

(** [find]: the node with the key; [None] is [end()]. *)
Fixpoint find (m : client_to_txn_t) (id : session_id_t) : option iterator :=
  match m with
  | [] => None
  | (k, v) :: rest =>
    if session_id_eqb k id then Some (O, v)
    else option_map next (find rest id)
  end.

(** [erase(it)] *)
Fixpoint erase (m : client_to_txn_t) (it : nat) : client_to_txn_t :=
  match m, it with
  | [], _ => []
  | _ :: rest, O => rest
  | e :: rest, S it' => e :: erase rest it'
  end.

(** Assignment through the reference [it->second]. *)
Fixpoint assign (m : client_to_txn_t) (it : nat) (r : running_txn_t)
    : client_to_txn_t :=
  match m, it with
  | [], _ => []
  | (k, _) :: rest, O => (k, r) :: rest
  | e :: rest, S it' => e :: assign rest it' r
  end.

(** [insert_or_assign]: the value of an existing key is replaced in place.
    libstdc++ links a new node in at the head of its bucket, which is the
    head of the node list when the bucket is empty or starts the list, as
    it always is in a map of at most two nodes.  The model links every new
    node in at the head of the list: where a third node lands depends on
    the hash of the id, which [hash_combine], a helper that the sources at
    hand do not contain, decides.  What is proved below about a state that a
    sequence of calls reaches has at most two sessions in it or does not
    depend on the order of the nodes. *)
Definition insert_or_assign (m : client_to_txn_t) (id : session_id_t)
    (r : running_txn_t) : client_to_txn_t :=
  match find m id with
  | Some (it, _) => assign m it r
  | None => (id, r) :: m
  end.

(** The keys of a hash map are distinct. *)
Definition distinct_keys (m : client_to_txn_t) : Prop := NoDup (map fst m).

(** The lambda that [pop] passes to [std::min_element]. *)
Definition aging_less (left right : session_id_t * running_txn_t) : bool :=
  (last_access (snd left) <? last_access (snd right)) &&
  negb (executing (snd left)).

(** The loop of [std::min_element]: [smallest] is the position of the best
    node so far and [best] the node itself, [first] is the position of the
    head of [rest]. *)
Fixpoint min_element_from (smallest : nat) (best : session_id_t * running_txn_t)
    (first : nat) (rest : client_to_txn_t) : iterator :=
  match rest with
  | [] => (smallest, snd best)
  | e :: rest' =>
    if aging_less e best
    then min_element_from first e (S first) rest'
    else min_element_from smallest best (S first) rest'
  end.

(** [std::min_element(begin, end, comp)]; [None] is [end()]. *)
Definition min_element (m : client_to_txn_t) : option iterator :=
  match m with
  | [] => None
  | e :: rest => Some (min_element_from O e 1%nat rest)
  end.

(** [std::vector] as a stack. *)
Definition back (v : list Z) : Z := last v nullptr.
Definition pop_back (v : list Z) : list Z := removelast v.
Definition push_back (v : list Z) (x : Z) : list Z := v ++ [x].
Definition empty (v : list Z) : bool :=
  match v with [] => true | _ => false end.

Record sessions_t : Type := {
  free_arenas_ : list ustore_arena_t;
  free_txns_ : list ustore_transaction_t;
  client_to_txn_ : client_to_txn_t;
  milliseconds_timeout : Z
}.

(** The constructor: [n] null handles on each stack, no session, the default
    timeout of thirty seconds. *)
Definition make_sessions (n : nat) : sessions_t :=
  {| free_arenas_ := repeat nullptr n;
     free_txns_ := repeat nullptr n;
     client_to_txn_ := [];
     milliseconds_timeout := 30000 |}.

Definition with_map (s : sessions_t) (m : client_to_txn_t) : sessions_t :=
  {| free_arenas_ := free_arenas_ s; free_txns_ := free_txns_ s;
     client_to_txn_ := m; milliseconds_timeout := milliseconds_timeout s |}.

Definition with_free (s : sessions_t) (arenas : list ustore_arena_t)
    (txns : list ustore_transaction_t) : sessions_t :=
  {| free_arenas_ := arenas; free_txns_ := txns;
     client_to_txn_ := client_to_txn_ s;
     milliseconds_timeout := milliseconds_timeout s |}.

(** [age.count() < milliseconds_timeout]: the left operand is the signed
    64-bit count of milliseconds, the right one a [std::size_t]; on an LP64
    target the usual arithmetic conversions turn the left operand into an
    unsigned 64-bit value before the comparison. *)
Definition count_less_than_timeout (count : Z) (timeout : Z) : bool :=
  count mod 2 ^ 64 <? timeout.

(** [pop].  The result carries the new state, the returned record and the
    error written through [c_error].  With no session in the map,
    [std::min_element] returns [end()] and [it->second] dereferences it. *)
Definition pop (s : sessions_t) (now : sys_time_t)
    : outcome (sessions_t * running_txn_t * ustore_error_t) :=
  match min_element (client_to_txn_ s) with
  | None => Undefined
  | Some (it, it_second) =>
    (* duration_cast<milliseconds>(it->second.last_access - now()) *)
    let age := Z.quot (last_access it_second - now) ticks_per_millisecond in
    if count_less_than_timeout age (milliseconds_timeout s) ||
       executing it_second
    then Ret (s, running_txn_default,
              log_error_m error_unknown_k "Too many concurrent sessions")
    else
      let released := it_second in
      let s' := with_map s (erase (client_to_txn_ s) it) in
      Ret (s', set_executing released false, None)
  end.

(** [submit] *)
Definition submit (s : sessions_t) (session_id : session_id_t)
    (running_txn : running_txn_t) : sessions_t :=
  let running_txn := set_executing running_txn false in
  with_map s (insert_or_assign (client_to_txn_ s) session_id running_txn).

(** [continue_txn] *)
Definition continue_txn (s : sessions_t) (session_id : session_id_t)
    (now : sys_time_t) : sessions_t * running_txn_t * ustore_error_t :=
  match find (client_to_txn_ s) session_id with
  | None =>
    (s, running_txn_default,
     log_error_m args_wrong_k "Transaction was terminated, start a new one")
  | Some (it, running) =>
    if executing running
    then (s, running_txn_default,
          log_error_m args_wrong_k "Transaction can't be modified concurrently.")
    else
      let running := set_last_access (set_executing running true) now in
      (with_map s (assign (client_to_txn_ s) it running), running, None)
  end.

(** [request_txn]; [now_pop] is the clock reading inside [pop], [now] the
    one that stamps the record. *)
Definition request_txn (s : sessions_t) (session_id : session_id_t)
    (now_pop now : sys_time_t)
    : outcome (sessions_t * running_txn_t * ustore_error_t) :=
  match find (client_to_txn_ s) session_id with
  | Some _ =>
    Ret (s, running_txn_default,
         log_error_m args_wrong_k
           "Such transaction is already running, just continue using it.")
  | None =>
    if empty (free_txns_ s) || empty (free_arenas_ s) then
      popped <- pop s now_pop ;;
      let '(s', running, c_error) := popped in
      match c_error with
      | Some _ => Ret (s', running_txn_default, c_error)
      | None =>
        Ret (s', set_last_access (set_executing running true) now, None)
      end
    else
      let running :=
        {| txn := back (free_txns_ s); arena := back (free_arenas_ s);
           last_access := now; executing := true |} in
      Ret (with_free s (pop_back (free_arenas_ s)) (pop_back (free_txns_ s)),
           running, None)
  end.

(** [hold_txn] *)
Definition hold_txn (s : sessions_t) (session_id : session_id_t)
    (running_txn : running_txn_t) : sessions_t :=
  submit s session_id running_txn.

(** [release_txn(running_txn_t)] *)
Definition release_txn_record (s : sessions_t) (running_txn : running_txn_t)
    : sessions_t :=
  with_free s (push_back (free_arenas_ s) (arena running_txn))
              (push_back (free_txns_ s) (txn running_txn)).

(** [release_txn(session_id_t)] *)
Definition release_txn (s : sessions_t) (session_id : session_id_t) : sessions_t :=
  match find (client_to_txn_ s) session_id with
  | None => s
  | Some (it, it_second) =>
    with_map (with_free s (push_back (free_arenas_ s) (arena it_second))
                          (push_back (free_txns_ s) (txn it_second)))
             (erase (client_to_txn_ s) it)
  end.

(** [request_arena] *)
Definition request_arena (s : sessions_t) (now_pop : sys_time_t)
    : outcome (sessions_t * ustore_arena_t * ustore_error_t) :=
  if empty (free_arenas_ s) then
    popped <- pop s now_pop ;;
    let '(s', running, c_error) := popped in
    match c_error with
    | Some _ => Ret (s', nullptr, c_error)
    | None =>
      Ret (with_free s' (free_arenas_ s') (push_back (free_txns_ s') (txn running)),
           arena running, None)
    end
  else
    Ret (with_free s (pop_back (free_arenas_ s)) (free_txns_ s),
         back (free_arenas_ s), None).

(** [release_arena] *)
Definition release_arena (s : sessions_t) (a : ustore_arena_t) : sessions_t :=
  with_free s (push_back (free_arenas_ s) a) (free_txns_ s).

(** [session_lock_t], without the reference to the manager. *)
Record session_lock_t : Type := {
  lock_session_id : session_id_t;
  lock_txn : ustore_transaction_t;
  lock_arena : ustore_arena_t
}.

(** [session_lock_t::is_txn] tests the transaction handle. *)
Definition lock_is_txn (l : session_lock_t) : bool :=
  negb (lock_txn l =? nullptr).

(** [lock] *)
Definition lock (s : sessions_t) (id : session_id_t) (now : sys_time_t)
    : outcome (sessions_t * session_lock_t * ustore_error_t) :=
  if session_is_txn id then
    let '(s', running, c_error) := continue_txn s id now in
    Ret (s', {| lock_session_id := id; lock_txn := txn running;
                lock_arena := arena running |}, c_error)
  else
    requested <- request_arena s now ;;
    let '(s', a, c_error) := requested in
    Ret (s', {| lock_session_id := id; lock_txn := nullptr; lock_arena := a |},
         c_error).

(** [session_lock_t::~session_lock_t] *)
Definition unlock (s : sessions_t) (l : session_lock_t) (now : sys_time_t)
    : sessions_t :=
  if lock_is_txn l then
    hold_txn s (lock_session_id l)
      {| txn := lock_txn l; arena := lock_arena l; last_access := now;
         executing := true |}
  else release_arena s (lock_arena l).

End Sessions.

(** ** Arrow C data interface *)

Module Arrow.

Local Open Scope Z_scope.

(** Modelled from the spec: the enumeration [ustore_doc_field_type_t] of
    [ustore/docs.h], which the sources at hand include but do not contain.
    Section 4.1 of the spec gives the column types; they are the enumerators
    that [arrow.h] names, and [ustore_doc_field_other_k] stands for every
    enumerator that reaches the [default] label. *)
Inductive ustore_doc_field_type_t : Type :=
| ustore_doc_field_null_k
| ustore_doc_field_bool_k
| ustore_doc_field_uuid_k
| ustore_doc_field_i8_k
| ustore_doc_field_i16_k
| ustore_doc_field_i32_k
| ustore_doc_field_i64_k
| ustore_doc_field_u8_k
| ustore_doc_field_u16_k
| ustore_doc_field_u32_k
| ustore_doc_field_u64_k
| ustore_doc_field_f16_k
| ustore_doc_field_f32_k
| ustore_doc_field_f64_k
| ustore_doc_field_bin_k
| ustore_doc_field_str_k
| ustore_doc_field_other_k.

Definition ARROW_FLAG_DICTIONARY_ORDERED : Z := 1.
Definition ARROW_FLAG_NULLABLE : Z := 2.
Definition ARROW_FLAG_MAP_KEYS_SORTED : Z := 4.

Definition NULL : Z := 0.

(** [ustore_doc_field_type_to_arrow_format] *)
Definition ustore_doc_field_type_to_arrow_format
    (field_type : ustore_doc_field_type_t) : string :=
  match field_type with
  | ustore_doc_field_null_k => "n"
  | ustore_doc_field_bool_k => "b"
  | ustore_doc_field_uuid_k => "w:16"
  | ustore_doc_field_i8_k => "c"
  | ustore_doc_field_i16_k => "s"
  | ustore_doc_field_i32_k => "i"
  | ustore_doc_field_i64_k => "l"
  | ustore_doc_field_u8_k => "C"
  | ustore_doc_field_u16_k => "S"
  | ustore_doc_field_u32_k => "I"
  | ustore_doc_field_u64_k => "L"
  | ustore_doc_field_f16_k => "e"
  | ustore_doc_field_f32_k => "f"
  | ustore_doc_field_f64_k => "g"
  | ustore_doc_field_bin_k => "z"
  | ustore_doc_field_str_k => "u"
  | ustore_doc_field_other_k => ""
  end.

(** The release hooks a struct can point at. *)
Inductive release_hook : Type :=
| release_malloced_schema
| release_malloced_array.

Local Set Warnings "-register-all".

(** [struct ArrowSchema] without [private_data], which no function of the
    header writes.  [children] is [None] for a null pointer; a child slot is
    [None] while the struct it points at is allocated but not filled in. *)
Inductive ArrowSchema : Type := Build_ArrowSchema {
  format : string;
  name : string;
  metadata : Z;
  flags : Z;
  schema_n_children : Z;
  schema_children : option (list (option ArrowSchema));
  schema_dictionary : Z;
  schema_release : release_hook
}.

(** [struct ArrowArray], likewise. *)
Inductive ArrowArray : Type := Build_ArrowArray {
  length : Z;
  null_count : Z;
  offset : Z;
  n_buffers : Z;
  n_children : Z;
  buffers : list Z;
  children : option (list (option ArrowArray));
  dictionary : Z;
  release : release_hook
}.

(** Conversion of a [ustore_size_t] to [int64_t]. *)
Definition to_int64 (n : Z) : Z := (n + 2 ^ 63) mod 2 ^ 64 - 2 ^ 63.

Definition failed_to_allocate : string := "Failed to allocate memory".

(** What a filling function leaves behind: the error message it stored, or
    the two structs.  The partly written structs of a failed call are not
    kept. *)
Definition filled := (string + ArrowSchema * ArrowArray)%type.

(** [ustore_to_arrow_schema].  [buffers_malloc_ok] says that the [malloc] of
    [array->buffers] returned a block: the function stores into the block
    before it tests the pointer.  [malloc_ok] says that every other [malloc]
    of the call returned a block. *)
Definition ustore_to_arrow_schema (buffers_malloc_ok malloc_ok : bool)
    (docs_count fields_count : Z) : outcome filled :=
  if negb buffers_malloc_ok then Undefined
  else if negb malloc_ok then Ret (inl failed_to_allocate)
  else
    Ret (inr ({| format := "+s";
            name := "";
            metadata := NULL;
            flags := 0;
            schema_n_children := to_int64 fields_count;
            schema_children := Some (repeat None (Z.to_nat fields_count));
            schema_dictionary := NULL;
            schema_release := release_malloced_schema |},
         {| length := to_int64 docs_count;
            offset := 0;
            null_count := 0;
            n_buffers := 1;
            n_children := to_int64 fields_count;
            dictionary := NULL;
            release := release_malloced_array;
            buffers := [NULL];
            children := Some (repeat None (Z.to_nat fields_count)) |})).

(** The [switch] of [ustore_to_arrow_column] that sets [n_buffers]. *)
Definition column_n_buffers (field_type : ustore_doc_field_type_t) : Z :=
  match field_type with
  | ustore_doc_field_bool_k
  | ustore_doc_field_uuid_k
  | ustore_doc_field_i8_k
  | ustore_doc_field_i16_k
  | ustore_doc_field_i32_k
  | ustore_doc_field_i64_k
  | ustore_doc_field_u8_k
  | ustore_doc_field_u16_k
  | ustore_doc_field_u32_k
  | ustore_doc_field_u64_k
  | ustore_doc_field_f16_k
  | ustore_doc_field_f32_k
  | ustore_doc_field_f64_k => 2
  | ustore_doc_field_bin_k
  | ustore_doc_field_str_k => 3
  | ustore_doc_field_null_k => 0
  | ustore_doc_field_other_k => 0
  end.

(** [ustore_to_arrow_column].  With [n_buffers == 0] the [else] branch stores
    three pointers into a block of no bytes. *)
Definition ustore_to_arrow_column (malloc_ok : bool)
    (docs_count : Z) (field_name : string)
    (field_type : ustore_doc_field_type_t)
    (column_validities column_offsets column_contents : Z)
    : outcome filled :=
  let schema :=
    {| name := field_name;
       metadata := NULL;
       flags := if negb (column_validities =? NULL) then ARROW_FLAG_NULLABLE else 0;
       schema_dictionary := NULL;
       schema_children := None;
       schema_release := release_malloced_schema;
       format := ustore_doc_field_type_to_arrow_format field_type;
       schema_n_children := 0 |} in
  let n := column_n_buffers field_type in
  if negb malloc_ok then Ret (inl failed_to_allocate)
  else if n =? 2 then
    Ret (inr (schema,
              {| n_buffers := n;
                 offset := 0;
                 length := to_int64 docs_count;
                 null_count := if negb (column_validities =? NULL) then -1 else 0;
                 n_children := 0;
                 dictionary := NULL;
                 children := None;
                 release := release_malloced_array;
                 buffers := [column_validities; column_contents] |}))
  else if n <? 3 then Undefined
  else
    Ret (inr (schema,
              {| n_buffers := n;
                 offset := 0;
                 length := to_int64 docs_count;
                 null_count := if negb (column_validities =? NULL) then -1 else 0;
                 n_children := 0;
                 dictionary := NULL;
                 children := None;
                 release := release_malloced_array;
                 buffers := [column_validities; column_offsets; column_contents] |})).

(** Filling the struct that [children[i]] points at. *)
Definition set_child {A : Type} (slots : option (list (option A))) (i : nat) (a : A)
    : outcome (option (list (option A))) :=
  match slots with
  | None => Undefined
  | Some l =>
    if (i <? List.length l)%nat
    then Ret (Some (firstn i l ++ Some a :: skipn (S i) l)%list)
    else Undefined
  end.

Section Memory.

(** The [ustore_length_t] stored at an index of the array a pointer refers
    to. *)
Variable load_length : Z -> Z -> Z.

(** [ustore_to_arrow_list].  [buffers_malloc_ok] is the flag of that name
    of [ustore_to_arrow_schema], [malloc_ok] covers the other allocations of
    the list node, [child_malloc_ok] the one of the call that fills the
    child. *)
Definition ustore_to_arrow_list (buffers_malloc_ok malloc_ok child_malloc_ok : bool)
    (docs_count : Z) (field_name : string)
    (field_type : ustore_doc_field_type_t)
    (column_validities column_offsets column_contents : Z)
    : outcome filled :=
  made <- ustore_to_arrow_schema buffers_malloc_ok malloc_ok docs_count 1 ;;
  match made with
  | inl error => Ret (inl error)
  | inr (schema, array) =>
    child <- ustore_to_arrow_column child_malloc_ok
               (load_length column_offsets docs_count) "chunks" field_type
               NULL NULL column_contents ;;
    match child with
    | inl error => Ret (inl error)
    | inr (child_schema, child_array) =>
      schema_slots <- set_child (schema_children schema) 0 child_schema ;;
      array_slots <- set_child (children array) 0 child_array ;;
      Ret (inr ({| name := field_name;
                   metadata := NULL;
                   flags := if negb (column_validities =? NULL)
                            then ARROW_FLAG_NULLABLE else 0;
                   schema_dictionary := NULL;
                   format := "+l";
                   schema_n_children := schema_n_children schema;
                   schema_children := schema_slots;
                   schema_release := schema_release schema |},
                {| length := length array;
                   offset := offset array;
                   null_count := if negb (column_validities =? NULL) then -1 else 0;
                   n_buffers := 2;
                   n_children := n_children array;
                   dictionary := dictionary array;
                   release := release array;
                   buffers := [column_validities; column_offsets];
                   children := array_slots |}))
    end
  end.

End Memory.

End Arrow.

(** ** Request dispatcher *)

Module Service.

Import Uri Sessions.
Local Open Scope Z_scope.

(** Modelled from the spec: the parameter names, verb names and column names
    of [helpers/arrow.hpp], which the sources at hand include but do not
    contain; the spec lists them in its sections 4.3 and 6. *)
Definition kParamTransactionID : string := "txn".
Definition kParamSnapshotID : string := "snap".
Definition kParamCollectionName : string := "col_name".
Definition kParamCollectionID : string := "col".
Definition kParamDropMode : string := "drop_mode".
Definition kParamReadPart : string := "part".
Definition kParamFlagFlushWrite : string := "flush".
Definition kParamFlagDontWatch : string := "dont_watch".
Definition kParamFlagSharedMemRead : string := "shared_mem".
Definition kFlightTxnBegin : string := "txn_begin".
Definition kArgKeys : string := "keys".

(** Modelled from the spec: [ustore_doc_field<ustore_key_t>()] of
    [ustore/cpp/types.hpp]; keys are 64-bit signed integers. *)
Definition ustore_doc_field_key : Arrow.ustore_doc_field_type_t :=
  Arrow.ustore_doc_field_i64_k.

Record session_params_t : Type := {
  session_id : session_id_t;
  transaction_id : option value_view;
  snapshot_id : option value_view;
  collection_name : option value_view;
  collection_id : option value_view;
  collection_drop_mode : option value_view;
  read_part : option value_view;
  opt_flush : option value_view;
  opt_dont_watch : option value_view;
  opt_shared_memory : option value_view
}.

(** [uri.find('?')]; [None] is [npos]. *)
Fixpoint find_question_mark (uri : string) : option nat :=
  match uri with
  | EmptyString => None
  | String c rest =>
    if Ascii.eqb c "?" then Some O else option_map S (find_question_mark rest)
  end.

(** [session_params]; [client] is what [parse_client_id] makes of the peer. *)
Definition session_params (client : client_id_t) (uri : string)
    : outcome session_params_t :=
  match find_question_mark uri with
  | None =>
    Ret {| session_id := {| client_id := client; txn_id := 0 |};
           transaction_id := None; snapshot_id := None;
           collection_name := None; collection_id := None;
           collection_drop_mode := None; read_part := None;
           opt_flush := None; opt_dont_watch := None;
           opt_shared_memory := None |}
  | Some params_offs =>
    let params := drop params_offs uri in
    transaction <- param_value params kParamTransactionID ;;
    txn <- match transaction with
           | Some value => parse_txn_id value
           | None => Ret 0
           end ;;
    snapshot <- param_value params kParamSnapshotID ;;
    col_name <- param_value params kParamCollectionName ;;
    col_id <- param_value params kParamCollectionID ;;
    drop_mode <- param_value params kParamDropMode ;;
    part <- param_value params kParamReadPart ;;
    flush <- param_value params kParamFlagFlushWrite ;;
    dont_watch <- param_value params kParamFlagDontWatch ;;
    shared_memory <- param_value params kParamFlagSharedMemRead ;;
    Ret {| session_id := {| client_id := client; txn_id := txn |};
           transaction_id := transaction; snapshot_id := snapshot;
           collection_name := col_name; collection_id := col_id;
           collection_drop_mode := drop_mode; read_part := part;
           opt_flush := flush; opt_dont_watch := dont_watch;
           opt_shared_memory := shared_memory |}
  end.

(** [ar::Status] *)
Inductive Status : Type :=
| OK
| Invalid (message : string)
| ExecutionError (message : string)
| NotImplemented (message : string).

(** [status.message()] of a [status_t] that holds an error. *)
Definition message_of (error : ustore_error_t) : string :=
  match error with
  | Some (_, message) => message
  | None => ""
  end.

Section Engine.

(** [ustore_transaction_init]: from the handle it is given, the handle it
    leaves in [session.txn] and the error it reports. *)
Variable ustore_transaction_init :
  ustore_transaction_t -> ustore_transaction_t * ustore_error_t.

(** [ustore_transaction_commit]: the error it reports. *)
Variable ustore_transaction_commit : ustore_transaction_t -> ustore_error_t.

(** The [txn_begin] branch of [DoAction]: the status, the scalar sent back
    and the session manager afterwards.  [random] is the value of
    [std::rand()]. *)
Definition DoAction_txn_begin (sessions : sessions_t) (params : session_params_t)
    (random : Z) (now_pop now : sys_time_t)
    : outcome (Status * option txn_id_t * sessions_t) :=
  let id :=
    match transaction_id params with
    | None => {| client_id := client_id (session_id params); txn_id := random |}
    | Some _ => session_id params
    end in
  requested <- request_txn sessions id now_pop now ;;
  let '(sessions, session, status) := requested in
  match status with
  | Some _ => Ret (ExecutionError (message_of status), None, sessions)
  | None =>
    let '(handle, status) := ustore_transaction_init (txn session) in
    let session :=
      {| txn := handle; arena := arena session;
         last_access := last_access session; executing := executing session |} in
    match status with
    | Some _ =>
      Ret (ExecutionError (message_of status), None, release_txn sessions id)
    | None => Ret (OK, Some (txn_id id), hold_txn sessions id session)
    end
  end.

(** The [txn_commit] branch of [DoAction]. *)
Definition DoAction_txn_commit (sessions : sessions_t) (params : session_params_t)
    (now : sys_time_t) : Status * sessions_t :=
  match transaction_id params with
  | None => (Invalid "Missing transaction ID argument", sessions)
  | Some _ =>
    let '(sessions, session, status) :=
      continue_txn sessions (session_id params) now in
    match status with
    | Some _ =>
      (ExecutionError (message_of status),
       release_txn sessions (session_id params))
    | None =>
      let status := ustore_transaction_commit (txn session) in
      match status with
      | Some _ =>
        (ExecutionError (message_of status),
         release_txn sessions (session_id params))
      | None => (OK, release_txn sessions (session_id params))
      end
    end
  end.



End Engine.

Section Scan.

(** Memory as the handler reads it: the [ustore_length_t] at an index of an
    array. *)
Variable load_length : Z -> Z -> Z.

(** What [ustore_scan] leaves in its output arguments. *)
Record scan_found : Type := {
  scan_error : ustore_error_t;
  found_offsets : Z;
  found_keys : Z;
  found_counts : Z
}.

(** [ustore_scan], as a function of the transaction, the arena and the
    number of tasks. *)
Variable ustore_scan :
  ustore_transaction_t -> ustore_arena_t -> Z -> scan_found.

(** The [scan] branch of [DoExchange], from the session lock on, up to the
    structs handed to [ar::ImportRecordBatch].  [input_start_keys] and
    [input_lengths] are the column pointers found in the input batch,
    [tasks_count] its length; the flags say whether the allocations of the
    three filling calls succeed. *)
Definition DoExchange_scan (session : session_lock_t)
    (input_start_keys input_lengths : Z) (tasks_count : Z)
    (buffers_malloc_ok schema_malloc_ok keys_malloc_ok offsets_malloc_ok : bool)
    : outcome (Status * option (Arrow.ArrowSchema * Arrow.ArrowArray)) :=
  if (input_start_keys =? 0) || (input_lengths =? 0) then
    Ret (Invalid "Keys and lengths must have been provided for scans", None)
  else
    let found := ustore_scan (lock_txn session) (lock_arena session) tasks_count in
    match scan_error found with
    | Some _ => Ret (ExecutionError (message_of (scan_error found)), None)
    | None =>
      let total := load_length (found_offsets found) tasks_count in
      made <- Arrow.ustore_to_arrow_schema buffers_malloc_ok schema_malloc_ok
                total 2 ;;
      match made with
      | inl error => Ret (ExecutionError error, None)
      | inr (output_schema_c, output_batch_c) =>
        keys <- Arrow.ustore_to_arrow_column keys_malloc_ok total kArgKeys
                  ustore_doc_field_key 0 0 (found_keys found) ;;
        match keys with
        | inl error => Ret (ExecutionError error, None)
        | inr (keys_schema, keys_array) =>
          offsets <- Arrow.ustore_to_arrow_column offsets_malloc_ok total "offsets"
                       ustore_doc_field_key 0 0 (found_offsets found) ;;
          match offsets with
          | inl error => Ret (ExecutionError error, None)
          | inr (offsets_schema, offsets_array) =>
            schema_slots <-
              Arrow.set_child (Arrow.schema_children output_schema_c) 0 keys_schema ;;
            schema_slots <- Arrow.set_child schema_slots 1 offsets_schema ;;
            array_slots <-
              Arrow.set_child (Arrow.children output_batch_c) 0 keys_array ;;
            array_slots <- Arrow.set_child array_slots 1 offsets_array ;;
            Ret (OK,
                 Some ({| Arrow.format := Arrow.format output_schema_c;
                          Arrow.name := Arrow.name output_schema_c;
                          Arrow.metadata := Arrow.metadata output_schema_c;
                          Arrow.flags := Arrow.flags output_schema_c;
                          Arrow.schema_n_children :=
                            Arrow.schema_n_children output_schema_c;
                          Arrow.schema_children := schema_slots;
                          Arrow.schema_dictionary :=
                            Arrow.schema_dictionary output_schema_c;
                          Arrow.schema_release :=
                            Arrow.schema_release output_schema_c |},
                       {| Arrow.length := Arrow.length output_batch_c;
                          Arrow.null_count := Arrow.null_count output_batch_c;
                          Arrow.offset := Arrow.offset output_batch_c;
                          Arrow.n_buffers := Arrow.n_buffers output_batch_c;
                          Arrow.n_children := Arrow.n_children output_batch_c;
                          Arrow.buffers := Arrow.buffers output_batch_c;
                          Arrow.children := array_slots;
                          Arrow.dictionary := Arrow.dictionary output_batch_c;
                          Arrow.release := Arrow.release output_batch_c |}))
          end
        end
      end
    end.

End Scan.

End Service.

(** ** Sequences of calls on the session manager *)

Module Trace.

Import Sessions.
Local Open Scope Z_scope.

(** One call of a public operation of [sessions_t], with its arguments and
    the clock readings it makes. *)
Inductive call : Type :=
| call_request_txn (id : session_id_t) (now_pop now : sys_time_t)
| call_continue_txn (id : session_id_t) (now : sys_time_t)
| call_hold_txn (id : session_id_t) (running_txn : running_txn_t)
| call_release_txn (id : session_id_t)
| call_release_txn_record (running_txn : running_txn_t)
| call_request_arena (now_pop : sys_time_t)
| call_release_arena (a : ustore_arena_t).

(** Book-keeping beside the manager, which the code does not hold: the
    sessions handed to a dispatcher by [continue_txn] and not yet given back,
    and the numbers of transaction handles and of arenas that callers hold
    outside the free stacks and the map. *)
Record ledger : Type := {
  borrowed : list session_id_t;
  txns_out : Z;
  arenas_out : Z
}.

Definition no_ledger : ledger :=
  {| borrowed := []; txns_out := 0; arenas_out := 0 |}.

Definition give_back (b : list session_id_t) (id : session_id_t)
    : list session_id_t :=
  filter (fun k => negb (session_id_eqb k id)) b.

Definition is_error (e : ustore_error_t) : bool :=
  match e with Some _ => true | None => false end.

(** The state after a call, with the ledger kept up to date. *)
Definition step (st : sessions_t * ledger) (c : call)
    : outcome (sessions_t * ledger) :=
  let '(s, g) := st in
  match c with
  | call_request_txn id now_pop now =>
    requested <- request_txn s id now_pop now ;;
    let '(s', _, c_error) := requested in
    if is_error c_error then Ret (s', g)
    else Ret (s', {| borrowed := borrowed g;
                     txns_out := txns_out g + 1;
                     arenas_out := arenas_out g + 1 |})
  | call_continue_txn id now =>
    let '(s', _, c_error) := continue_txn s id now in
    if is_error c_error then Ret (s', g)
    else Ret (s', {| borrowed := id :: borrowed g;
                     txns_out := txns_out g;
                     arenas_out := arenas_out g |})
  | call_hold_txn id running_txn =>
    let stored :=
      match find (client_to_txn_ s) id with
      | Some _ => 0
      | None => 1
      end in
    Ret (hold_txn s id running_txn,
         {| borrowed := give_back (borrowed g) id;
            txns_out := txns_out g - stored;
            arenas_out := arenas_out g - stored |})
  | call_release_txn id =>
    Ret (release_txn s id,
         {| borrowed := give_back (borrowed g) id;
            txns_out := txns_out g;
            arenas_out := arenas_out g |})
  | call_release_txn_record running_txn =>
    Ret (release_txn_record s running_txn,
         {| borrowed := borrowed g;
            txns_out := txns_out g - 1;
            arenas_out := arenas_out g - 1 |})
  | call_request_arena now_pop =>
    requested <- request_arena s now_pop ;;
    let '(s', _, c_error) := requested in
    if is_error c_error then Ret (s', g)
    else Ret (s', {| borrowed := borrowed g;
                     txns_out := txns_out g;
                     arenas_out := arenas_out g + 1 |})
  | call_release_arena a =>
    Ret (release_arena s a,
         {| borrowed := borrowed g;
            txns_out := txns_out g;
            arenas_out := arenas_out g - 1 |})
  end.

Fixpoint run (st : sessions_t * ledger) (calls : list call)
    : outcome (sessions_t * ledger) :=
  match calls with
  | [] => Ret st
  | c :: rest => st' <- step st c ;; run st' rest
  end.

(** Every session marked executing is one a dispatcher has borrowed. *)
Definition executing_are_borrowed (s : sessions_t) (g : ledger) : Prop :=
  forall id r,
    In (id, r) (client_to_txn_ s) -> executing r = true -> In id (borrowed g).

(** The sizes the capacity is accounted in. *)
Definition txn_slots (s : sessions_t) : Z :=
  Z.of_nat (List.length (free_txns_ s)) + Z.of_nat (List.length (client_to_txn_ s)).

Definition arena_slots (s : sessions_t) : Z :=
  Z.of_nat (List.length (free_arenas_ s)) + Z.of_nat (List.length (client_to_txn_ s)).

End Trace.

(** ** States and engines used in the examples *)

Module Examples.

Import Sessions.
Local Open Scope Z_scope.

Definition alice : session_id_t := {| client_id := 7; txn_id := 1 |}.
Definition bob : session_id_t := {| client_id := 7; txn_id := 2 |}.

(** One second of the system clock. *)
Definition one_second : Z := 1000 * ticks_per_millisecond.

(** A record as [txn_begin] stores it once the engine has initialised the
    transaction. *)
Definition begun (handle a : Z) (t : sys_time_t) : running_txn_t :=
  {| txn := handle; arena := a; last_access := t; executing := true |}.

(** A manager of capacity one whose only slot is taken by the session of
    [alice], idle since the epoch of the clock. *)
Definition one_idle_session : sessions_t :=
  {| free_arenas_ := [];
     free_txns_ := [];
     client_to_txn_ :=
       [(alice, {| txn := 4096; arena := 8192; last_access := 0;
                   executing := false |})];
     milliseconds_timeout := 30000 |}.

(** The same manager while a dispatcher works on the session. *)
Definition one_executing_session : sessions_t :=
  {| free_arenas_ := [];
     free_txns_ := [];
     client_to_txn_ :=
       [(alice, {| txn := 4096; arena := 8192; last_access := 0;
                   executing := true |})];
     milliseconds_timeout := 30000 |}.

(** A manager of capacity two: the session of [alice] is executing since
    the epoch, the session of [bob] is idle since one second later. *)
Definition executing_then_idle : sessions_t :=
  {| free_arenas_ := [];
     free_txns_ := [];
     client_to_txn_ :=
       [(alice, {| txn := 4096; arena := 8192; last_access := 0;
                   executing := true |});
        (bob, {| txn := 4097; arena := 8193; last_access := one_second;
                 executing := false |})];
     milliseconds_timeout := 30000 |}.

(** An engine whose [ustore_transaction_init] succeeds and one whose call
    fails, and the same for [ustore_transaction_commit]. *)
Definition init_succeeds (handle : Z) : Z * ustore_error_t := (4096, None).
Definition init_fails (handle : Z) : Z * ustore_error_t :=
  (handle, Some (error_unknown_k, "out of memory")).
Definition commit_fails (handle : Z) : ustore_error_t :=
  Some (error_unknown_k, "write conflict").

(** The parameters of a request that carries nothing but a [txn]. *)
Definition txn_params (sid : session_id_t) (value : string)
    : Service.session_params_t :=
  {| Service.session_id := sid;
     Service.transaction_id := Some (Uri.view value);
     Service.snapshot_id := None;
     Service.collection_name := None;
     Service.collection_id := None;
     Service.collection_drop_mode := None;
     Service.read_part := None;
     Service.opt_flush := None;
     Service.opt_dont_watch := None;
     Service.opt_shared_memory := None |}.

(** The lock of a request outside any transaction. *)
Definition plain_lock : session_lock_t :=
  {| lock_session_id := {| client_id := 7; txn_id := 0 |};
     lock_txn := nullptr;
     lock_arena := 8192 |}.

(** An engine that answers a scan of one task with three keys: the offsets
    array at address 20480 holds 0 and 3. *)
Definition scan_finds_three (transaction a tasks_count : Z) : Service.scan_found :=
  {| Service.scan_error := None;
     Service.found_offsets := 20480;
     Service.found_keys := 16384;
     Service.found_counts := 24576 |}.

Definition three_at_index_one (base index : Z) : Z :=
  if (base =? 20480) && (index =? 1) then 3 else 0.

End Examples.

(** ** The validity bitmap *)

Module Bitmap.

Local Open Scope Z_scope.

Definition CHAR_BIT : Z := 8.

(** [check_presence]: [begin] is the array of octets the pointer refers to;
    an index past its end is a read out of bounds.  The mask is
    [(ustore_octet_t)(1 << (idx % CHAR_BIT))]. *)
Definition check_presence (begin : list Z) (idx : Z) : outcome bool :=
  match nth_error begin (Z.to_nat (idx / CHAR_BIT)) with
  | None => Undefined
  | Some octet =>
    Ret (negb (Z.land octet (Z.shiftl 1 (idx mod CHAR_BIT) mod 256) =? 0))
  end.

(** The number a sequence of octets spells, least significant octet first. *)
Fixpoint little_endian (octets : list Z) : Z :=
  match octets with
  | [] => 0
  | octet :: rest => octet + 256 * little_endian rest
  end.

End Bitmap.

(** ** The other verbs of the dispatcher *)

Module Handlers.

Import Uri Sessions Service.
Local Open Scope Z_scope.

(** Modelled from the spec: more names of [helpers/arrow.hpp], which the
    sources at hand include but do not contain; the spec lists the verbs,
    the values of [drop_mode] and the column names in its sections 4.3, 4.4
    and 6. *)
Definition kFlightWrite : string := "write".
Definition kFlightWritePath : string := "write_path".
Definition kFlightListCols : string := "list_cols".
Definition kFlightListSnap : string := "list_snaps".
Definition kParamDropModeValues : string := "values".
Definition kParamDropModeContents : string := "contents".
Definition kArgCols : string := "cols".
Definition kArgNames : string := "names".
Definition kArgSnaps : string := "snaps".

(** Modelled from the spec: [ustore_doc_field<ustore_collection_t>()] and
    [ustore_doc_field<ustore_snapshot_t>()] of [ustore/cpp/types.hpp];
    collection and snapshot ids are 64-bit unsigned integers. *)
Definition ustore_doc_field_collection : Arrow.ustore_doc_field_type_t :=
  Arrow.ustore_doc_field_u64_k.
Definition ustore_doc_field_snapshot : Arrow.ustore_doc_field_type_t :=
  Arrow.ustore_doc_field_u64_k.

(** The value of a decimal digit. *)
Definition dec_digit (c : ascii) : option Z :=
  let n := Z.of_nat (nat_of_ascii c) in
  if (48 <=? n) && (n <=? 57) then Some (n - 48) else None.

(** The longest run of decimal digits at the head of [s]: its value, not yet
    reduced to 64 bits, and its length. *)
Fixpoint dec_digits (s : string) (acc : Z) (count : nat) : Z * nat :=
  match s with
  | String c rest =>
    match dec_digit c with
    | Some d => dec_digits rest (acc * 10 + d) (S count)
    | None => (acc, count)
    end
  | EmptyString => (acc, count)
  end.

(** [std::from_chars(first, last, value)] for an unsigned 64-bit [value] in
    base ten: no white space, no sign; [value] is left as it is when no
    digit is found and when the number does not fit. *)
Definition from_chars (chars : string) (value : Z) : Z :=
  let '(parsed, count) := dec_digits chars 0 0%nat in
  match count with
  | O => value
  | _ => if ULLONG_MAX <? parsed then value else parsed
  end.

(** [parse_snap_id].  The empty view gives an empty range, which
    [std::from_chars] does not read. *)
Definition parse_snap_id (str : value_view) (default_ : base_id_t) : base_id_t :=
  from_chars (match str with empty_view => "" | view chars => chars end)
             default_.

(** [ustore_drop_mode_t], by the enumerators that [DoAction] names. *)
Inductive ustore_drop_mode_t : Type :=
| ustore_drop_vals_k
| ustore_drop_keys_vals_k
| ustore_drop_keys_vals_handle_k.

(** [std::optional<std::string_view>] compared with a string by [==]. *)
Definition optional_equals (o : option value_view) (k : string) : bool :=
  match o with
  | None => false
  | Some empty_view => String.eqb "" k
  | Some (view chars) => String.eqb chars k
  end.

(** The [drop_mode] of a request. *)
Definition drop_mode_of (params : session_params_t) : ustore_drop_mode_t :=
  if optional_equals (collection_drop_mode params) kParamDropModeValues
  then ustore_drop_vals_k
  else if optional_equals (collection_drop_mode params) kParamDropModeContents
  then ustore_drop_keys_vals_k
  else ustore_drop_keys_vals_handle_k.

(** The status of a handler that ends on the [status_t] of an engine call. *)
Definition status_of (error : ustore_error_t) : Status :=
  match error with
  | Some _ => ExecutionError (message_of error)
  | None => OK
  end.

Section Engine.

(** The id of the collection without a name, [ustore_collection_main_k] of
    [ustore/db.h]. *)
Variable ustore_collection_main_k : Z.

(** [ustore_collection_drop], as a function of the id and the mode. *)
Variable ustore_collection_drop : Z -> ustore_drop_mode_t -> ustore_error_t.

(** [ustore_snapshot_drop], as a function of the id. *)
Variable ustore_snapshot_drop : Z -> ustore_error_t.

(** The [collection_drop] branch of [DoAction]. *)
Definition DoAction_collection_drop (params : session_params_t)
    : outcome Status :=
  match collection_id params with
  | None => Ret (Invalid "Missing collection ID argument")
  | Some value =>
    let mode := drop_mode_of params in
    c_collection_id <- parse_u64_hex value ustore_collection_main_k ;;
    Ret (status_of (ustore_collection_drop c_collection_id mode))
  end.

(** The [snapshot_drop] branch of [DoAction]. *)
Definition DoAction_snapshot_drop (params : session_params_t) : Status :=
  match snapshot_id params with
  | None => Invalid "Missing snapshot ID argument"
  | Some value => status_of (ustore_snapshot_drop (parse_snap_id value 0))
  end.

(** [ustore_write] and [ustore_paths_write], as functions of the
    transaction, the arena and the collection of the [col] parameter
    ([None] when the collections come from a column of the batch): the
    arena the engine leaves in [session.arena] and the error. *)
Variable ustore_write :
  ustore_transaction_t -> ustore_arena_t -> option Z ->
  ustore_arena_t * ustore_error_t.
Variable ustore_paths_write :
  ustore_transaction_t -> ustore_arena_t -> option Z ->
  ustore_arena_t * ustore_error_t.

(** The collection a handler passes to the engine for the [col] parameter. *)
Definition collection_of (params : session_params_t) : outcome (option Z) :=
  match collection_id params with
  | Some value =>
    c_collection_id <- parse_u64_hex value ustore_collection_main_k ;;
    Ret (Some c_collection_id)
  | None => Ret None
  end.

(** One branch of [DoPut]: [input] is the pointer to the keys, or to the
    paths, found in the batch, [engine] the call of the branch; [now] is
    the clock when the lock is taken, [now'] when its destructor runs. *)
Definition DoPut_branch
    (engine : ustore_transaction_t -> ustore_arena_t -> option Z ->
              ustore_arena_t * ustore_error_t)
    (sessions : sessions_t) (params : session_params_t) (input : Z)
    (now now' : sys_time_t) : outcome (Status * sessions_t) :=
  if input =? 0
  then Ret (Invalid "Keys must have been provided for reads", sessions)
  else
    collection <- collection_of params ;;
    locked <- lock sessions (session_id params) now ;;
    let '(sessions, session, status) := locked in
    match status with
    | Some _ =>
      Ret (ExecutionError (message_of status), unlock sessions session now')
    | None =>
      let '(a, status) :=
        engine (lock_txn session) (lock_arena session) collection in
      let session :=
        {| lock_session_id := lock_session_id session;
           lock_txn := lock_txn session; lock_arena := a |} in
      Ret (status_of status, unlock sessions session now')
    end.

(** [DoPut]: [unpacked] is the status of [unpack_table], [input_keys] and
    [input_paths] the pointers found in the batch. *)
Definition DoPut (sessions : sessions_t) (client : client_id_t) (cmd : string)
    (unpacked : Status) (input_keys input_paths : Z) (now now' : sys_time_t)
    : outcome (Status * sessions_t) :=
  params <- session_params client cmd ;;
  match unpacked with
  | OK =>
    if is_query cmd kFlightWrite
    then DoPut_branch ustore_write sessions params input_keys now now'
    else if is_query cmd kFlightWritePath
    then DoPut_branch ustore_paths_write sessions params input_paths now now'
    else Ret (OK, sessions)
  | ar_status => Ret (ar_status, sessions)
  end.

End Engine.

Section Listing.

(** What [ustore_collection_list] leaves in its output arguments and in
    [session.arena]. *)
Record collections_found : Type := {
  list_error : ustore_error_t;
  list_arena : ustore_arena_t;
  list_count : Z;
  list_ids : Z;
  list_offsets : Z;
  list_names : Z
}.

(** What [ustore_snapshot_list] leaves. *)
Record snapshots_found : Type := {
  snaps_error : ustore_error_t;
  snaps_arena : ustore_arena_t;
  snaps_count : Z;
  snaps_ids : Z
}.

Variable ustore_collection_list :
  ustore_transaction_t -> ustore_arena_t -> collections_found.
Variable ustore_snapshot_list : ustore_arena_t -> snapshots_found.

(** The structs a handler hands to [ar::ImportRecordBatch]. *)
Definition batch := (Arrow.ArrowSchema * Arrow.ArrowArray)%type.

Definition with_children (root : batch)
    (schema_slots : option (list (option Arrow.ArrowSchema)))
    (array_slots : option (list (option Arrow.ArrowArray))) : batch :=
  ({| Arrow.format := Arrow.format (fst root);
      Arrow.name := Arrow.name (fst root);
      Arrow.metadata := Arrow.metadata (fst root);
      Arrow.flags := Arrow.flags (fst root);
      Arrow.schema_n_children := Arrow.schema_n_children (fst root);
      Arrow.schema_children := schema_slots;
      Arrow.schema_dictionary := Arrow.schema_dictionary (fst root);
      Arrow.schema_release := Arrow.schema_release (fst root) |},
   {| Arrow.length := Arrow.length (snd root);
      Arrow.null_count := Arrow.null_count (snd root);
      Arrow.offset := Arrow.offset (snd root);
      Arrow.n_buffers := Arrow.n_buffers (snd root);
      Arrow.n_children := Arrow.n_children (snd root);
      Arrow.buffers := Arrow.buffers (snd root);
      Arrow.children := array_slots;
      Arrow.dictionary := Arrow.dictionary (snd root);
      Arrow.release := Arrow.release (snd root) |}).

(** Filling the child [i] of a batch with what a call of
    [ustore_to_arrow_column] made. *)
Definition fill_child (root : batch) (i : nat) (column : batch)
    : outcome batch :=
  schema_slots <- Arrow.set_child (Arrow.schema_children (fst root)) i (fst column) ;;
  array_slots <- Arrow.set_child (Arrow.children (snd root)) i (snd column) ;;
  Ret (with_children root schema_slots array_slots).

(** The [list_cols] branch of [DoGet]: the status, the batch behind the
    stream of the response, and the manager once the lock is gone.  The
    flags say whether the allocations of the three filling calls succeed. *)
Definition DoGet_list_cols (sessions : sessions_t) (params : session_params_t)
    (buffers_malloc_ok schema_malloc_ok cols_malloc_ok names_malloc_ok : bool)
    (now now' : sys_time_t) : outcome (Status * option batch * sessions_t) :=
  locked <- lock sessions (session_id params) now ;;
  let '(sessions, session, status) := locked in
  match status with
  | Some _ =>
    Ret (ExecutionError (message_of status), None,
         unlock sessions session now')
  | None =>
    let found := ustore_collection_list (lock_txn session) (lock_arena session) in
    let session :=
      {| lock_session_id := lock_session_id session;
         lock_txn := lock_txn session; lock_arena := list_arena found |} in
    let sessions := unlock sessions session now' in
    match list_error found with
    | Some _ => Ret (ExecutionError (message_of (list_error found)), None, sessions)
    | None =>
      made <- Arrow.ustore_to_arrow_schema buffers_malloc_ok schema_malloc_ok
                (list_count found) 2 ;;
      match made with
      | inl error => Ret (ExecutionError error, None, sessions)
      | inr root =>
        cols <- Arrow.ustore_to_arrow_column cols_malloc_ok (list_count found)
                  kArgCols ustore_doc_field_collection 0 0 (list_ids found) ;;
        match cols with
        | inl error => Ret (ExecutionError error, None, sessions)
        | inr cols =>
          root <- fill_child root 0 cols ;;
          names <- Arrow.ustore_to_arrow_column names_malloc_ok
                     (list_count found) kArgNames Arrow.ustore_doc_field_str_k
                     0 (list_offsets found) (list_names found) ;;
          match names with
          | inl error => Ret (ExecutionError error, None, sessions)
          | inr names =>
            root <- fill_child root 1 names ;;
            Ret (OK, Some root, sessions)
          end
        end
      end
    end
  end.

(** The [list_snaps] branch of [DoGet]. *)
Definition DoGet_list_snaps (sessions : sessions_t) (params : session_params_t)
    (buffers_malloc_ok schema_malloc_ok snaps_malloc_ok : bool)
    (now now' : sys_time_t) : outcome (Status * option batch * sessions_t) :=
  locked <- lock sessions (session_id params) now ;;
  let '(sessions, session, status) := locked in
  match status with
  | Some _ =>
    Ret (ExecutionError (message_of status), None,
         unlock sessions session now')
  | None =>
    let found := ustore_snapshot_list (lock_arena session) in
    let session :=
      {| lock_session_id := lock_session_id session;
         lock_txn := lock_txn session; lock_arena := snaps_arena found |} in
    let sessions := unlock sessions session now' in
    match snaps_error found with
    | Some _ => Ret (ExecutionError (message_of (snaps_error found)), None, sessions)
    | None =>
      if snaps_count found =? 0 then Ret (OK, None, sessions)
      else
        made <- Arrow.ustore_to_arrow_schema buffers_malloc_ok schema_malloc_ok
                  (snaps_count found) 2 ;;
        match made with
        | inl error => Ret (ExecutionError error, None, sessions)
        | inr root =>
          snaps <- Arrow.ustore_to_arrow_column snaps_malloc_ok
                     (snaps_count found) kArgSnaps ustore_doc_field_snapshot
                     0 0 (snaps_ids found) ;;
          match snaps with
          | inl error => Ret (ExecutionError error, None, sessions)
          | inr snaps =>
            root <- fill_child root 0 snaps ;;
            Ret (OK, Some root, sessions)
          end
        end
    end
  end.

(** [DoGet]: the branch flags are those of the two branches. *)
Definition DoGet (sessions : sessions_t) (client : client_id_t)
    (ticket : string)
    (buffers_malloc_ok schema_malloc_ok first_malloc_ok second_malloc_ok : bool)
    (now now' : sys_time_t) : outcome (Status * option batch * sessions_t) :=
  params <- session_params client ticket ;;
  if is_query ticket kFlightListCols
  then DoGet_list_cols sessions params buffers_malloc_ok schema_malloc_ok
         first_malloc_ok second_malloc_ok now now'
  else if is_query ticket kFlightListSnap
  then DoGet_list_snaps sessions params buffers_malloc_ok schema_malloc_ok
         first_malloc_ok now now'
  else Ret (OK, None, sessions).

End Listing.

End Handlers.

(** ** The discipline of the callers *)

Module Protocol.

Import Sessions Trace.
Local Open Scope Z_scope.



End Protocol.

(** ** Identifiers on the wire *)

Module Wire.



End Wire.

(** ** More states used in the examples *)

Module Samples.

Import Sessions.
Local Open Scope Z_scope.

(** A full manager of capacity two whose sessions are both idle, that of
    [alice] since the epoch, that of [bob] since one second later. *)
Definition two_idle_sessions : sessions_t :=
  {| free_arenas_ := [];
     free_txns_ := [];
     client_to_txn_ :=
       [(Examples.bob, {| txn := 4097; arena := 8193;
                          last_access := Examples.one_second;
                          executing := false |});
        (Examples.alice, {| txn := 4096; arena := 8192; last_access := 0;
                            executing := false |})];
     milliseconds_timeout := 30000 |}.

(** A manager of capacity two with one free slot beside the idle session
    of [alice]. *)
Definition one_free_slot : sessions_t :=
  {| free_arenas_ := [8193];
     free_txns_ := [4097];
     client_to_txn_ :=
       [(Examples.alice, {| txn := 4096; arena := 8192; last_access := 0;
                            executing := false |})];
     milliseconds_timeout := 30000 |}.

(** A full manager of capacity two: the session of [bob] is idle since one
    second after the epoch, the session of [alice] is executing since the
    epoch. *)
Definition idle_then_executing : sessions_t :=
  {| free_arenas_ := [];
     free_txns_ := [];
     client_to_txn_ :=
       [(Examples.bob, {| txn := 4097; arena := 8193;
                          last_access := Examples.one_second;
                          executing := false |});
        (Examples.alice, Examples.begun 4096 8192 0)];
     milliseconds_timeout := 30000 |}.

(** The session id of a request of client 7 outside any transaction. *)
Definition nobody : session_id_t := {| client_id := 7; txn_id := 0 |}.

(** The parameters of a request that carries nothing but a [col]. *)
Definition col_params (value : string) : Service.session_params_t :=
  {| Service.session_id := nobody;
     Service.transaction_id := None;
     Service.snapshot_id := None;
     Service.collection_name := None;
     Service.collection_id := Some (Uri.view value);
     Service.collection_drop_mode := None;
     Service.read_part := None;
     Service.opt_flush := None;
     Service.opt_dont_watch := None;
     Service.opt_shared_memory := None |}.

(** The parameters of a request that carries nothing but a [snap]. *)
Definition snap_params (value : string) : Service.session_params_t :=
  {| Service.session_id := nobody;
     Service.transaction_id := None;
     Service.snapshot_id := Some (Uri.view value);
     Service.collection_name := None;
     Service.collection_id := None;
     Service.collection_drop_mode := None;
     Service.read_part := None;
     Service.opt_flush := None;
     Service.opt_dont_watch := None;
     Service.opt_shared_memory := None |}.

(** An engine whose drops succeed. *)
Definition drop_succeeds (id : Z) : ustore_error_t := None.
Definition collection_drop_succeeds (id : Z)
    (mode : Handlers.ustore_drop_mode_t) : ustore_error_t := None.

(** The parameters of a request that carries nothing at all. *)
Definition no_params : Service.session_params_t :=
  {| Service.session_id := nobody;
     Service.transaction_id := None;
     Service.snapshot_id := None;
     Service.collection_name := None;
     Service.collection_id := None;
     Service.collection_drop_mode := None;
     Service.read_part := None;
     Service.opt_flush := None;
     Service.opt_dont_watch := None;
     Service.opt_shared_memory := None |}.

(** An engine whose writes fail and leave the arena at address 12288. *)
Definition write_fails (transaction a : Z) (collection : option Z)
    : Z * ustore_error_t :=
  (12288, Some (error_unknown_k, "disk full")).

(** An engine whose writes succeed and leave the arena at address 12288. *)
Definition write_succeeds (transaction a : Z) (collection : option Z)
    : Z * ustore_error_t :=
  (12288, None).

(** An engine that lists two collections: ids at address 16384, offsets of
    the names at 20480, names at 24576. *)
Definition two_collections (transaction a : Z) : Handlers.collections_found :=
  {| Handlers.list_error := None;
     Handlers.list_arena := 12288;
     Handlers.list_count := 2;
     Handlers.list_ids := 16384;
     Handlers.list_offsets := 20480;
     Handlers.list_names := 24576 |}.

(** An engine that answers a scan with no key at all: every entry of its
    offsets array, at address 20480, is zero. *)
Definition scan_finds_nothing (transaction a tasks_count : Z)
    : Service.scan_found :=
  {| Service.scan_error := None;
     Service.found_offsets := 20480;
     Service.found_keys := 16384;
     Service.found_counts := 24576 |}.

Definition all_zero (base index : Z) : Z := 0.

(** An engine that lists three snapshots at address 16384. *)
Definition three_snapshots (a : Z) : Handlers.snapshots_found :=
  {| Handlers.snaps_error := None;
     Handlers.snaps_arena := 12288;
     Handlers.snaps_count := 3;
     Handlers.snaps_ids := 16384 |}.

End Samples.

(** * Properties *)

(** ** The URI parameter parser *)

Section ParamValue.

Import Uri.
Local Open Scope nat_scope.

Lemma length_drop (n : nat) (s : string) :
  String.length (drop n s) = String.length s - n.
Proof.
  revert s; induction n as [|n IH]; intros [|c s]; simpl; auto.
Qed.

Lemma search_bounds (needle text : string) (pos : nat) :
  pos <= search text needle pos <= pos + String.length text.
Proof.
  revert pos; induction text as [|c text IH]; intros pos;
    cbn [search String.length].
  - destruct (prefix needle ""); lia.
  - destruct (prefix needle (String c text)); [lia|].
    specialize (IH (S pos)); lia.
Qed.

(** Where [search] stops short of the end, the needle is there. *)
Lemma search_finds (needle text : string) (pos : nat) :
  search text needle pos < pos + String.length text ->
  prefix needle (drop (search text needle pos - pos) text) = true.
Proof.
  revert pos; induction text as [|c text IH]; intros pos;
    cbn [search String.length].
  - destruct (prefix needle ""); lia.
  - destruct (prefix needle (String c text)) eqn:E.
    + intros _. now rewrite Nat.sub_diag.
    + intros H. pose proof (search_bounds needle text (S pos)) as B.
      replace (search text needle (S pos) - pos)
        with (S (search text needle (S pos) - S pos)) by lia.
      cbn [drop]. apply IH. lia.
Qed.

Lemma drop_drop (n m : nat) (s : string) : drop n (drop m s) = drop (m + n) s.
Proof.
  revert s; induction m as [|m IH]; intros s; simpl; auto.
  destruct s; simpl; auto. destruct n; reflexivity.
Qed.

(** The loop of [param_value] has budget enough: it never times out. *)
Lemma param_value_loop_terminates (fuel : nat) (q k : string) (key_begin : nat) :
  key_begin <= String.length q ->
  String.length q - key_begin < fuel ->
  param_value_loop fuel q k key_begin <> Timeout.
Proof.
  revert key_begin; induction fuel as [|fuel IH]; intros kb Hkb Hf; [lia|].
  cbn [param_value_loop].
  pose proof (search_bounds k (drop kb q) kb) as B.
  rewrite length_drop in B.
  generalize dependent (search (drop kb q) k kb); intros p B.
  destruct (Nat.eqb_spec p (String.length q)); [discriminate|].
  destruct (p + String.length k =? String.length q); [discriminate|].
  destruct p as [|b]; [discriminate|].
  destruct (get b q); [|discriminate].
  assert (String.length q - (S b + 1) < fuel) by lia.
  destruct (_ && _); [apply IH; lia|].
  destruct (get _ q); [|discriminate].
  destruct (Ascii.eqb _ "&"); [discriminate|].
  destruct (Ascii.eqb _ "="); [discriminate|].
  apply IH; lia.
Qed.

Theorem param_value_terminates (q k : string) : param_value q k <> Timeout.
Proof.
  apply param_value_loop_terminates; lia.
Qed.

Lemma param_value_loop_accepts (fuel : nat) (q k : string) (key_begin : nat)
    (v : value_view) :
  key_begin <= String.length q ->
  param_value_loop fuel q k key_begin = Ret (Some v) ->
  exists p, accepted_at q k p v.
Proof.
  revert key_begin; induction fuel as [|fuel IH]; intros kb Hkb; [discriminate|].
  cbn [param_value_loop].
  pose proof (search_bounds k (drop kb q) kb) as B.
  pose proof (search_finds k (drop kb q) kb) as F.
  rewrite length_drop in B, F. rewrite drop_drop in F.
  generalize dependent (search (drop kb q) k kb); intros p B F.
  destruct (Nat.eqb_spec p (String.length q)); [discriminate|].
  assert (Hp : prefix k (drop p q) = true).
  { replace p with (kb + (p - kb)) by lia. apply F. lia. }
  destruct (Nat.eqb_spec (p + String.length k) (String.length q)) as [Hs|Hs].
  { intros [= <-]. exists p. split; auto. }
  destruct p as [|b]; [discriminate|].
  destruct (get b q) as [prev|] eqn:Eprev; [|discriminate].
  set (skip := negb (Ascii.eqb prev "?") && negb (Ascii.eqb prev "&") &&
               negb (Ascii.eqb prev "/")).
  assert (Hsep : skip = false -> (prev = "?" \/ prev = "&" \/ prev = "/")%char).
  { unfold skip.
    destruct (Ascii.eqb_spec prev "?"); auto.
    destruct (Ascii.eqb_spec prev "&"); auto.
    destruct (Ascii.eqb_spec prev "/"); auto. discriminate. }
  destruct skip; [apply IH; lia|]. specialize (Hsep eq_refl).
  destruct (get (S b + String.length k) q) as [next|] eqn:Enext;
    [|intros; discriminate].
  destruct (Ascii.eqb_spec next "&") as [->|M1].
  { intros [= <-]. exists (S b). split; auto. right.
    exists b, prev, "&"%char. repeat (split; auto). }
  destruct (Ascii.eqb_spec next "=") as [->|M2]; [|apply IH; lia].
  intros H. exists (S b). split; auto. right.
  exists b, prev, "="%char. do 4 (split; auto).
  right. split; auto.
  match type of H with
  | context [substring ?a (?a + ?f - ?a)] =>
    replace (a + f - a) with f in H by lia
  end.
  congruence.
Qed.

(** Every match of [param_value] is accepted at some position. *)
Theorem param_value_accepts (q k : string) (v : value_view) :
  param_value q k = Ret (Some v) -> exists p, accepted_at q k p v.
Proof.
  apply param_value_loop_accepts. lia.
Qed.






Lemma param_value_accepts_witness :
  exists p, accepted_at "?a=1&bc=2" "bc" p (view "2").
Proof.
  apply (param_value_accepts "?a=1&bc=2" "bc" (view "2")). reflexivity.
Defined.

(** [param_value] always comes to an end: it returns, or it reads the
    character before the view. *)
Theorem param_value_is_total (q k : string) :
  param_value q k = Undefined \/ exists r, param_value q k = Ret r.
Proof.
  pose proof (param_value_terminates q k) as T.
  destruct (param_value q k); [right; eauto|auto|congruence].
Qed.

(** The three look-ups that the spec gives as examples. *)
Example param_value_examples :
  param_value "?a=1&bc=2" "a" = Ret (Some (view "1")) /\
  param_value "?a=1&bc=2" "bc" = Ret (Some (view "2")) /\
  param_value "?a=1&bc=2" "b" = Ret None.
Proof. repeat split. Qed.

(** C3 (the code departs from the claim).  In the query [?a=1&bc] the key
    [c] occurs only as the end of the larger key [bc], after the character
    [b]; the claim has it never matched, the code returns a match, with an
    empty value: the test for a key at the end of the query comes before
    the test of the preceding character.  So a collection named [flush]
    turns the flush flag on. *)
Theorem param_value_matches_the_end_of_a_larger_key :
  param_value "?a=1&bc" "c" = Ret (Some empty_view) /\
  search "?a=1&bc" "c" 0 = 6 /\
  get 5 "?a=1&bc" = Some "b"%char /\
  param_value "?col_name=flush" "flush" = Ret (Some empty_view).
Proof. repeat split. Qed.

End ParamValue.

(** ** The session map *)

Section SessionMap.

Import Sessions.
Local Open Scope Z_scope.

Lemma session_id_eqb_eq (a b : session_id_t) :
  session_id_eqb a b = true <-> a = b.
Proof.
  destruct a as [ca ta], b as [cb tb]; unfold session_id_eqb; simpl.
  rewrite andb_true_iff, !Z.eqb_eq. split.
  - intros [-> ->]; reflexivity.
  - intros [= -> ->]; auto.
Qed.

Lemma session_id_eqb_refl (a : session_id_t) : session_id_eqb a a = true.
Proof. now apply session_id_eqb_eq. Qed.

Lemma session_id_eqb_neq (a b : session_id_t) :
  session_id_eqb a b = false <-> a <> b.
Proof.
  rewrite <- session_id_eqb_eq. destruct (session_id_eqb a b); split;
    congruence.
Qed.

(** An iterator returned by [find] points at a node with the key. *)
Lemma find_Some (m : client_to_txn_t) (id : session_id_t) (it : nat)
    (r : running_txn_t) :
  find m id = Some (it, r) -> nth_error m it = Some (id, r).
Proof.
  revert it; induction m as [|[k v] m IH]; intros it; simpl; [discriminate|].
  destruct (session_id_eqb k id) eqn:E.
  - intros [= <- <-]. apply session_id_eqb_eq in E. now subst.
  - destruct (find m id) as [[j w]|]; [|discriminate].
    intros [= <- <-]. simpl. now apply IH.
Qed.

Lemma find_None (m : client_to_txn_t) (id : session_id_t) :
  find m id = None <-> ~ In id (map fst m).
Proof.
  induction m as [|[k v] m IH]; simpl; [tauto|].
  destruct (session_id_eqb k id) eqn:E.
  - apply session_id_eqb_eq in E. split; [discriminate|tauto].
  - apply session_id_eqb_neq in E.
    destruct (find m id) as [[j w]|] eqn:F; simpl.
    + split; [discriminate|]. intros H. exfalso. apply H. right.
      apply find_Some, nth_error_In in F.
      apply in_map_iff. now exists (id, w).
    + split; [|reflexivity]. intros _ [H|H]; [congruence|].
      now apply (proj1 IH).
Qed.



Lemma keys_assign (m : client_to_txn_t) (it : nat) (r : running_txn_t) :
  map fst (assign m it r) = map fst m.
Proof.
  revert it; induction m as [|[k v] m IH]; intros [|it]; simpl; auto.
  now rewrite IH.
Qed.

Lemma find_assign_same (m : client_to_txn_t) (id : session_id_t) (it : nat)
    (r r' : running_txn_t) :
  find m id = Some (it, r) -> find (assign m it r') id = Some (it, r').
Proof.
  revert it; induction m as [|[k v] m IH]; intros it; simpl; [discriminate|].
  destruct (session_id_eqb k id) eqn:E.
  - intros [= <- <-]. simpl. now rewrite E.
  - destruct (find m id) as [[j w]|] eqn:F; [|discriminate].
    intros [= <- <-]. simpl. rewrite E. now rewrite (IH _ eq_refl).
Qed.

Lemma find_assign_other (m : client_to_txn_t) (id id' : session_id_t)
    (it : nat) (r r' : running_txn_t) :
  find m id = Some (it, r) -> id' <> id ->
  find (assign m it r') id' = find m id'.
Proof.
  revert it; induction m as [|[k v] m IH]; intros it; simpl; [discriminate|].
  destruct (session_id_eqb k id) eqn:E.
  - intros [= <- <-] N. simpl. apply session_id_eqb_eq in E. subst k.
    apply not_eq_sym, session_id_eqb_neq in N. now rewrite N.
  - destruct (find m id) as [[j w]|] eqn:F; [|discriminate].
    intros [= <- <-] N. simpl. now rewrite (IH _ eq_refl N).
Qed.

Lemma In_assign (m : client_to_txn_t) (it : nat) (r : running_txn_t) k v :
  In (k, v) (assign m it r) ->
  (v = r /\ exists w, nth_error m it = Some (k, w)) \/
  (exists j, j <> it /\ nth_error m j = Some (k, v)).
Proof.
  revert it; induction m as [|[k0 v0] m IH]; intros [|it]; simpl; try tauto.
  - intros [[= <- <-]|H]; [left; eauto|].
    right. apply In_nth_error in H as [j Hj]. exists (S j). auto.
  - intros [[= <- <-]|H]; [right; exists O; auto|].
    apply IH in H as [[-> [w Hw]]|[j [Hj Hn]]]; [left; eauto|].
    right. exists (S j). split; [congruence|auto].
Qed.

Lemma In_erase (m : client_to_txn_t) (it : nat) e :
  In e (erase m it) -> exists j, j <> it /\ nth_error m j = Some e.
Proof.
  revert it; induction m as [|x m IH]; intros [|it]; simpl; try tauto.
  - intros H. apply In_nth_error in H as [j Hj]. exists (S j). auto.
  - intros [<-|H]; [exists O; auto|].
    apply IH in H as [j [Hj Hn]]. exists (S j). split; [congruence|auto].
Qed.

Lemma keys_erase (m : client_to_txn_t) (it : nat) k :
  In k (map fst (erase m it)) -> In k (map fst m).
Proof.
  rewrite !in_map_iff. intros [e [<- H]]. exists e. split; auto.
  apply In_erase in H as [j [_ H]]. eapply nth_error_In; eauto.
Qed.

Lemma NoDup_keys_erase (m : client_to_txn_t) (it : nat) :
  NoDup (map fst m) -> NoDup (map fst (erase m it)).
Proof.
  revert it; induction m as [|x m IH]; intros [|it]; simpl; auto.
  - intros H. now inversion H.
  - intros H. inversion H as [|? ? Hx Hm]; subst. constructor; auto.
    intros N. apply Hx. eapply keys_erase; eauto.
Qed.

(** In a map with distinct keys, two nodes with one key are one node. *)
Lemma NoDup_keys_nth (m : client_to_txn_t) i j k v w :
  NoDup (map fst m) ->
  nth_error m i = Some (k, v) -> nth_error m j = Some (k, w) -> i = j.
Proof.
  intros N Hi Hj.
  rewrite NoDup_nth_error in N. apply N.
  - rewrite length_map. apply nth_error_Some. congruence.
  - rewrite !nth_error_map, Hi, Hj. reflexivity.
Qed.

Lemma find_erase_same (m : client_to_txn_t) (id : session_id_t) (it : nat)
    (r : running_txn_t) :
  NoDup (map fst m) -> find m id = Some (it, r) -> find (erase m it) id = None.
Proof.
  intros N F. apply find_None. intros H.
  apply in_map_iff in H as [[k v] [Hk H]]. simpl in Hk. subst k.
  apply In_erase in H as [j [Hj Hn]].
  apply find_Some in F. apply Hj. eapply NoDup_keys_nth; eauto.
Qed.

Lemma NoDup_keys_insert_or_assign (m : client_to_txn_t) id r :
  NoDup (map fst m) -> NoDup (map fst (insert_or_assign m id r)).
Proof.
  unfold insert_or_assign. intros N.
  destruct (find m id) as [[it w]|] eqn:F.
  - now rewrite keys_assign.
  - simpl. constructor; auto. now apply find_None.
Qed.

Lemma find_insert_or_assign (m : client_to_txn_t) id r :
  exists it, find (insert_or_assign m id r) id = Some (it, r).
Proof.
  unfold insert_or_assign.
  destruct (find m id) as [[it w]|] eqn:F.
  - exists it. eapply find_assign_same; eauto.
  - exists O. simpl. now rewrite session_id_eqb_refl.
Qed.

(** [std::min_element] returns a node of the map. *)
Lemma min_element_from_nth (rest : client_to_txn_t) :
  forall (m : client_to_txn_t) smallest best first it it_second,
  nth_error m smallest = Some best ->
  (forall i e, nth_error rest i = Some e -> nth_error m (first + i) = Some e) ->
  min_element_from smallest best first rest = (it, it_second) ->
  exists k, nth_error m it = Some (k, it_second).
Proof.
  induction rest as [|e rest IH]; intros m smallest best first it it_second Hb Hr;
    simpl.
  - intros [= <- <-]. exists (fst best). now destruct best.
  - assert (He : nth_error m first = Some e).
    { rewrite <- (Nat.add_0_r first). now apply Hr. }
    assert (Hr' : forall i x, nth_error rest i = Some x ->
                              nth_error m (S first + i) = Some x).
    { intros i x Hx. replace (S first + i)%nat with (first + S i)%nat by lia.
      now apply Hr. }
    destruct (aging_less e best); eapply IH; eauto.
Qed.

Lemma min_element_nth (m : client_to_txn_t) it it_second :
  min_element m = Some (it, it_second) ->
  exists k, nth_error m it = Some (k, it_second).
Proof.
  destruct m as [|e m]; simpl; [discriminate|].
  intros [= H].
  apply (min_element_from_nth m (e :: m) O e 1%nat it it_second); auto.
Qed.

End SessionMap.

(** ** The operations of the session manager *)

Section Manager.

Import Sessions.
Local Open Scope Z_scope.

(** What [pop] can return: the error, with nothing changed, or a session
    that was not executing, erased from the map. *)
Lemma pop_Ret (s s' : sessions_t) (now : sys_time_t) (r : running_txn_t)
    (e : ustore_error_t) :
  pop s now = Ret (s', r, e) ->
  (e = log_error_m error_unknown_k "Too many concurrent sessions" /\
   s' = s /\ r = running_txn_default) \/
  (e = None /\
   exists it k victim,
     nth_error (client_to_txn_ s) it = Some (k, victim) /\
     executing victim = false /\
     count_less_than_timeout
       (Z.quot (last_access victim - now) ticks_per_millisecond)
       (milliseconds_timeout s) = false /\
     s' = with_map s (erase (client_to_txn_ s) it) /\
     r = set_executing victim false).
Proof.
  unfold pop.
  destruct (min_element (client_to_txn_ s)) as [[it victim]|] eqn:M;
    [|discriminate].
  apply min_element_nth in M as [k Hk].
  destruct (count_less_than_timeout _ _) eqn:C; simpl.
  - intros [= <- <- <-]. left. auto.
  - destruct (executing victim) eqn:X; intros [= <- <- <-]; [left; auto|].
    right. split; auto. exists it, k, victim. auto.
Qed.


Lemma length_push_back (v : list Z) (x : Z) :
  List.length (push_back v x) = S (List.length v).
Proof.
  unfold push_back. rewrite length_app. simpl. lia.
Qed.

Lemma erase_assign (m : client_to_txn_t) (it : nat) (r : running_txn_t) :
  erase (assign m it r) it = erase m it.
Proof.
  revert it; induction m as [|[k v] m IH]; intros [|it]; simpl; auto.
  now rewrite IH.
Qed.

(** What [request_txn] can return: an error with nothing changed, a record
    taken from an evicted session, or a record made of the two handles on
    top of the free stacks. *)
Lemma request_txn_Ret (s s' : sessions_t) (id : session_id_t)
    (now_pop now : sys_time_t) (r : running_txn_t) (e : ustore_error_t) :
  request_txn s id now_pop now = Ret (s', r, e) ->
  (e <> None /\ s' = s /\ r = running_txn_default) \/
  (e = None /\
   ((exists it k victim,
       nth_error (client_to_txn_ s) it = Some (k, victim) /\
       executing victim = false /\
       s' = with_map s (erase (client_to_txn_ s) it) /\
       r = {| txn := txn victim; arena := arena victim; last_access := now;
              executing := true |}) \/
    (empty (free_txns_ s) = false /\ empty (free_arenas_ s) = false /\
     s' = with_free s (pop_back (free_arenas_ s)) (pop_back (free_txns_ s)) /\
     r = {| txn := back (free_txns_ s); arena := back (free_arenas_ s);
            last_access := now; executing := true |}))).
Proof.
  unfold request_txn.
  destruct (find (client_to_txn_ s) id).
  { intros [= <- <- <-]. left. split; [discriminate|auto]. }
  destruct (empty (free_txns_ s)) eqn:Et; simpl.
  2: destruct (empty (free_arenas_ s)) eqn:Ea.
  3: { intros [= <- <- <-]. right. split; [reflexivity|]. right. auto. }
  all: destruct (pop s now_pop) as [[[s1 r1] e1]| |] eqn:P; simpl;
    try discriminate.
  all: apply pop_Ret in P as [(-> & -> & ->)|(-> & it & k & victim & Hn & Hx & _ & -> & ->)];
    intros [= <- <- <-];
    [ left; split; [discriminate|auto]
    | right; split; [reflexivity|]; left; exists it, k, victim; auto ].
Qed.

(** What [request_arena] can return, likewise. *)
Lemma request_arena_Ret (s s' : sessions_t) (now_pop : sys_time_t)
    (a : ustore_arena_t) (e : ustore_error_t) :
  request_arena s now_pop = Ret (s', a, e) ->
  (e <> None /\ s' = s /\ a = nullptr) \/
  (e = None /\
   ((exists it k victim,
       empty (free_arenas_ s) = true /\
       nth_error (client_to_txn_ s) it = Some (k, victim) /\
       executing victim = false /\
       s' = with_free (with_map s (erase (client_to_txn_ s) it))
                      (free_arenas_ s) (push_back (free_txns_ s) (txn victim)) /\
       a = arena victim) \/
    (empty (free_arenas_ s) = false /\
     s' = with_free s (pop_back (free_arenas_ s)) (free_txns_ s) /\
     a = back (free_arenas_ s)))).
Proof.
  unfold request_arena.
  destruct (empty (free_arenas_ s)) eqn:Ea.
  2: { intros [= <- <- <-]. right. split; [reflexivity|]. right. auto. }
  destruct (pop s now_pop) as [[[s1 r1] e1]| |] eqn:P; simpl; try discriminate.
  apply pop_Ret in P as [(-> & -> & ->)|(-> & it & k & victim & Hn & Hx & _ & -> & ->)];
    intros [= <- <- <-].
  - left. split; [discriminate|auto].
  - right. split; [reflexivity|]. left. exists it, k, victim. auto.
Qed.

End Manager.

(** ** Invariants of sequences of calls *)

Section TraceInvariants.

Import Sessions Trace.
Local Open Scope Z_scope.

Lemma In_give_back (b : list session_id_t) (id k : session_id_t) :
  In k (give_back b id) <-> In k b /\ k <> id.
Proof.
  unfold give_back. rewrite filter_In, negb_true_iff, session_id_eqb_neq.
  tauto.
Qed.

(** The nodes that stay when one node is erased keep the invariant. *)
Lemma erase_keeps_borrowed (s : sessions_t) (g : ledger) (it : nat) :
  executing_are_borrowed s g ->
  executing_are_borrowed (with_map s (erase (client_to_txn_ s) it)) g.
Proof.
  intros I id r H. apply In_erase in H as [j [_ H]].
  apply I. eapply nth_error_In; eauto.
Qed.

Lemma step_keeps_borrowed (s s' : sessions_t) (g g' : ledger) (c : call) :
  distinct_keys (client_to_txn_ s) -> executing_are_borrowed s g ->
  step (s, g) c = Ret (s', g') ->
  distinct_keys (client_to_txn_ s') /\ executing_are_borrowed s' g'.
Proof.
  intros N I. destruct c as [id t1 t2|id t|id r|id|r|t|a]; simpl.
  - destruct (request_txn s id t1 t2) as [[[s1 r1] e1]| |] eqn:R; simpl;
      try discriminate.
    apply request_txn_Ret in R
      as [(He & -> & _)|(-> & [(it & k & v & _ & _ & -> & _)|(_ & _ & -> & _)])].
    + destruct e1; [|congruence]. intros [= <- <-]. auto.
    + intros [= <- <-]. split; [now apply NoDup_keys_erase|].
      now apply erase_keeps_borrowed.
    + intros [= <- <-]. auto.
  - unfold continue_txn.
    destruct (find (client_to_txn_ s) id) as [[it r]|] eqn:F.
    2: { intros [= <- <-]. auto. }
    destruct (executing r) eqn:X; intros [= <- <-]; [auto|]. simpl.
    split; [unfold distinct_keys; now rewrite keys_assign|].
    intros k v H Hv. simpl in *.
    apply In_assign in H as [[-> [w Hw]]|[j [_ Hj]]].
    + apply find_Some in F. left.
      assert (nth_error (map fst (client_to_txn_ s)) it = Some k) as Hk
        by (rewrite nth_error_map, Hw; reflexivity).
      rewrite nth_error_map, F in Hk. simpl in Hk. congruence.
    + right. apply (I k v); auto. eapply nth_error_In; eauto.
  - intros [= <- <-]. unfold hold_txn, submit; simpl.
    split; [now apply NoDup_keys_insert_or_assign|].
    intros k v H Hv. simpl in *. apply In_give_back.
    unfold insert_or_assign in H.
    destruct (find (client_to_txn_ s) id) as [[it w]|] eqn:F.
    + apply In_assign in H as [[-> _]|[j [Hj Hn]]]; [discriminate|].
      split; [apply (I k v); auto; eapply nth_error_In; eauto|].
      intros ->. apply find_Some in F. apply Hj.
      eapply NoDup_keys_nth; eauto.
    + destruct H as [[= <- <-]|H]; [discriminate|].
      split; [now apply (I k v)|]. intros ->.
      apply find_None in F. apply F. apply in_map_iff. now exists (id, v).
  - intros [= <- <-]. unfold release_txn.
    destruct (find (client_to_txn_ s) id) as [[it w]|] eqn:F; simpl.
    + split; [now apply NoDup_keys_erase|].
      intros k v H Hv. simpl in *. apply In_give_back.
      apply In_erase in H as [j [Hj Hn]].
      split; [apply (I k v); auto; eapply nth_error_In; eauto|].
      intros ->. apply find_Some in F. apply Hj.
      eapply NoDup_keys_nth; eauto.
    + split; auto. intros k v H Hv. simpl. apply In_give_back.
      split; [now apply (I k v)|]. intros ->.
      apply find_None in F. apply F. apply in_map_iff. now exists (id, v).
  - intros [= <- <-]. auto.
  - destruct (request_arena s t) as [[[s1 a1] e1]| |] eqn:R; simpl;
      try discriminate.
    apply request_arena_Ret in R
      as [(He & -> & _)|(-> & [(it & k & v & _ & _ & _ & -> & _)|(_ & -> & _)])].
    + destruct e1; [|congruence]. intros [= <- <-]. auto.
    + intros [= <- <-]. split; [now apply NoDup_keys_erase|].
      apply (erase_keeps_borrowed s _ it) in I. exact I.
    + intros [= <- <-]. auto.
  - intros [= <- <-]. auto.
Qed.


Lemma run_keeps_borrowed (calls : list call) :
  forall (s s' : sessions_t) (g g' : ledger),
  distinct_keys (client_to_txn_ s) -> executing_are_borrowed s g ->
  run (s, g) calls = Ret (s', g') ->
  distinct_keys (client_to_txn_ s') /\ executing_are_borrowed s' g'.
Proof.
  induction calls as [|c calls IH]; intros s s' g g' N I; cbn [run].
  - intros [= <- <-]. auto.
  - destruct (step (s, g) c) as [[s1 g1]| |] eqn:S; cbn [bind];
      try discriminate.
    apply step_keeps_borrowed in S as [N1 I1]; auto.
    now apply IH.
Qed.








End TraceInvariants.

(** ** The session manager: claims *)

Section SessionClaims.

Import Sessions Trace Service.
Local Open Scope Z_scope.

(** The state [one_idle_session] arises from a [txn_begin] on a fresh
    manager of capacity one, and [executing_then_idle] from two on a manager
    of capacity two followed by work on both sessions. *)
Example one_idle_session_is_reachable :
  run (make_sessions 1, no_ledger)
      [call_request_txn Examples.alice 0 0;
       call_hold_txn Examples.alice (Examples.begun 4096 8192 0)]
  = Ret (Examples.one_idle_session, no_ledger).
Proof. reflexivity. Qed.

Example executing_then_idle_is_reachable :
  run (make_sessions 2, no_ledger)
      [call_request_txn Examples.bob 0 0;
       call_hold_txn Examples.bob (Examples.begun 4097 8193 0);
       call_request_txn Examples.alice 0 0;
       call_hold_txn Examples.alice (Examples.begun 4096 8192 0);
       call_continue_txn Examples.alice 0;
       call_continue_txn Examples.bob Examples.one_second;
       call_hold_txn Examples.bob (Examples.begun 4097 8193 Examples.one_second)]
  = Ret (Examples.executing_then_idle,
         {| borrowed := [Examples.alice]; txns_out := 0; arenas_out := 0 |}).
Proof. reflexivity. Qed.

(** C1 (the code departs from the claim).  The pool of a manager of capacity
    one is exhausted and its only session has been idle for one second, far
    less than the timeout of thirty seconds.  The claim has [request_txn]
    and [request_arena] fail with capacity-exhausted and leave the map
    alone; the code erases the session and hands its two handles over. *)
Theorem request_txn_evicts_session_younger_than_timeout :
  client_to_txn_ Examples.one_idle_session
  = [(Examples.alice, {| txn := 4096; arena := 8192; last_access := 0;
                         executing := false |})] /\
  (Examples.one_second - 0) / ticks_per_millisecond
  < milliseconds_timeout Examples.one_idle_session /\
  request_txn Examples.one_idle_session Examples.bob
              Examples.one_second Examples.one_second
  = Ret ({| free_arenas_ := []; free_txns_ := []; client_to_txn_ := [];
            milliseconds_timeout := 30000 |},
         {| txn := 4096; arena := 8192; last_access := Examples.one_second;
            executing := true |},
         None) /\
  request_arena Examples.one_idle_session Examples.one_second
  = Ret ({| free_arenas_ := []; free_txns_ := [4096]; client_to_txn_ := [];
            milliseconds_timeout := 30000 |}, 8192, None).
Proof.
  split; [reflexivity|]. split; [reflexivity|].
  split; vm_compute; reflexivity.
Qed.

(** The other way round: with an executing session first in iteration order
    and an idle one, older than the timeout, behind it, the comparison of
    [pop] never moves to the idle session and the call fails. *)
Example pop_misses_idle_session_behind_executing_one :
  pop Examples.executing_then_idle (100 * Examples.one_second)
  = Ret (Examples.executing_then_idle, running_txn_default,
         Some (error_unknown_k, "Too many concurrent sessions")).
Proof. vm_compute. reflexivity. Qed.

(** The timeout has no part in the decision of [pop]: the only session of a
    map is evicted as soon as it is idle and one millisecond old, whatever
    the timeout. *)
Theorem pop_ignores_timeout (s : sessions_t) (k : session_id_t)
    (v : running_txn_t) (now : sys_time_t) :
  client_to_txn_ s = [(k, v)] ->
  executing v = false ->
  0 <= milliseconds_timeout s <= 2 ^ 63 ->
  ticks_per_millisecond <= now - last_access v < 2 ^ 63 * ticks_per_millisecond ->
  pop s now = Ret (with_map s [], v, None).
Proof.
  intros Hm Hx Ht Hage. unfold pop. rewrite Hm. simpl.
  set (age := Z.quot (last_access v - now) ticks_per_millisecond).
  assert (Hhi : age <= -1).
  { unfold age. replace (-1) with (Z.quot (- ticks_per_millisecond) ticks_per_millisecond)
      by reflexivity.
    apply Z.quot_le_mono; [reflexivity|lia]. }
  assert (Hlo : - 2 ^ 63 <= age).
  { unfold age.
    replace (- 2 ^ 63)
      with (Z.quot (- 2 ^ 63 * ticks_per_millisecond) ticks_per_millisecond)
      by reflexivity.
    apply Z.quot_le_mono; [reflexivity|lia]. }
  unfold count_less_than_timeout.
  replace (age mod 2 ^ 64) with (age + 2 ^ 64).
  2: { apply Z.mod_unique with (q := -1); lia. }
  destruct (Z.ltb_spec (age + 2 ^ 64) (milliseconds_timeout s)); [lia|].
  rewrite Hx. simpl. do 2 f_equal.
  destruct v; simpl in *. now subst.
Qed.

Lemma pop_ignores_timeout_witness :
  pop Examples.one_idle_session Examples.one_second
  = Ret (with_map Examples.one_idle_session [],
         {| txn := 4096; arena := 8192; last_access := 0; executing := false |},
         None).
Proof.
  apply (pop_ignores_timeout Examples.one_idle_session Examples.alice);
    [reflexivity | reflexivity | simpl; lia | vm_compute; split; congruence ].
Defined.

(** C2 (the code departs from the claim).  On a manager of capacity one,
    [request_txn] followed by the matching [release_txn], which is what
    [txn_begin] does when the engine fails to initialise the transaction,
    leaves both free stacks and the map empty: the sizes add up to zero, not
    to the capacity.  [release_txn] finds no session under the id, since
    [request_txn] does not insert one, and returns without pushing the
    handles back. *)
Theorem release_txn_after_request_txn_loses_the_handles :
  exists s g,
    run (make_sessions 1, no_ledger)
        [call_request_txn Examples.alice 0 0; call_release_txn Examples.alice]
    = Ret (s, g) /\
    txn_slots s = 0 /\ arena_slots s = 0 /\
    txns_out g = 1 /\ arenas_out g = 1 /\
    DoAction_txn_begin Examples.init_fails (make_sessions 1)
      (Examples.txn_params Examples.alice "1") 0 0 0
    = Ret (ExecutionError "out of memory", None, s).
Proof.
  eexists _, _. split; [reflexivity|]. repeat split.
Qed.

(** C4.  [continue_txn] fails with the not-found error when the id is not
    in the map and with the conflict error when its record is executing,
    both times leaving the manager as it was; otherwise it marks the record
    in the map executing, stamps it with the current time and returns it,
    and no other session, nor a free stack, changes. *)
Theorem continue_txn_outcomes (s : sessions_t) (sid : session_id_t)
    (now : sys_time_t) :
  (find (client_to_txn_ s) sid = None ->
   continue_txn s sid now
   = (s, running_txn_default,
      Some (args_wrong_k, "Transaction was terminated, start a new one"))) /\
  (forall it r,
     find (client_to_txn_ s) sid = Some (it, r) -> executing r = true ->
     continue_txn s sid now
     = (s, running_txn_default,
        Some (args_wrong_k, "Transaction can't be modified concurrently."))) /\
  (forall it r,
     find (client_to_txn_ s) sid = Some (it, r) -> executing r = false ->
     exists s',
       continue_txn s sid now
       = (s', {| txn := txn r; arena := arena r; last_access := now;
                 executing := true |}, None) /\
       find (client_to_txn_ s') sid
       = Some (it, {| txn := txn r; arena := arena r; last_access := now;
                      executing := true |}) /\
       (forall other, other <> sid ->
          find (client_to_txn_ s') other = find (client_to_txn_ s) other) /\
       free_arenas_ s' = free_arenas_ s /\ free_txns_ s' = free_txns_ s).
Proof.
  unfold continue_txn. repeat split.
  - now intros ->.
  - intros it r -> ->. reflexivity.
  - intros it r F X. rewrite F, X. eexists. split; [reflexivity|]. simpl.
    split; [eapply find_assign_same; eauto|].
    split; [|auto]. intros other N. eapply find_assign_other; eauto.
Qed.

Lemma continue_txn_outcomes_witness :
  continue_txn (make_sessions 1) Examples.alice 5
  = (make_sessions 1, running_txn_default,
     Some (args_wrong_k, "Transaction was terminated, start a new one")) /\
  continue_txn Examples.one_executing_session Examples.alice 5
  = (Examples.one_executing_session, running_txn_default,
     Some (args_wrong_k, "Transaction can't be modified concurrently.")) /\
  exists s',
    continue_txn Examples.one_idle_session Examples.alice 5
    = (s', {| txn := 4096; arena := 8192; last_access := 5;
              executing := true |}, None) /\
    find (client_to_txn_ s') Examples.alice
    = Some (O, {| txn := 4096; arena := 8192; last_access := 5;
                  executing := true |}) /\
    (forall other, other <> Examples.alice ->
       find (client_to_txn_ s') other
       = find (client_to_txn_ Examples.one_idle_session) other) /\
    free_arenas_ s' = [] /\ free_txns_ s' = [].
Proof.
  split; [|split].
  - apply (proj1 (continue_txn_outcomes (make_sessions 1) Examples.alice 5)).
    reflexivity.
  - apply (proj1 (proj2 (continue_txn_outcomes Examples.one_executing_session
                           Examples.alice 5)) O
             {| txn := 4096; arena := 8192; last_access := 0;
                executing := true |}); reflexivity.
  - apply (proj2 (proj2 (continue_txn_outcomes Examples.one_idle_session
                           Examples.alice 5)) O
             {| txn := 4096; arena := 8192; last_access := 0;
                executing := false |}); reflexivity.
Defined.

End SessionClaims.

Section SessionLifecycle.

Import Sessions Trace Service.
Local Open Scope Z_scope.

(** C5.  A [txn_commit] on a session that is in the map and not executing
    ends with the session erased and its arena and transaction handle on
    top of the free stacks, whether the engine reports the commit as done
    or as failed; the status tells the two apart.  The keys of the map are
    distinct, as those of a hash map are. *)
Theorem txn_commit_releases_the_session
    (ustore_transaction_commit : ustore_transaction_t -> ustore_error_t)
    (sessions : sessions_t) (params : session_params_t) (now : sys_time_t)
    (value : Uri.value_view) (it : nat) (r : running_txn_t) :
  transaction_id params = Some value ->
  distinct_keys (client_to_txn_ sessions) ->
  find (client_to_txn_ sessions) (session_id params) = Some (it, r) ->
  executing r = false ->
  exists status sessions',
    DoAction_txn_commit ustore_transaction_commit sessions params now
    = (status, sessions') /\
    status = match ustore_transaction_commit (txn r) with
             | None => OK
             | Some (_, message) => ExecutionError message
             end /\
    find (client_to_txn_ sessions') (session_id params) = None /\
    client_to_txn_ sessions' = erase (client_to_txn_ sessions) it /\
    free_arenas_ sessions' = push_back (free_arenas_ sessions) (arena r) /\
    free_txns_ sessions' = push_back (free_txns_ sessions) (txn r).
Proof.
  intros Hv N F X. unfold DoAction_txn_commit. rewrite Hv.
  unfold continue_txn. rewrite F, X.
  set (r' := set_last_access (set_executing r true) now).
  set (s1 := with_map sessions (assign (client_to_txn_ sessions) it r')).
  assert (R : release_txn s1 (session_id params)
              = with_map (with_free sessions
                            (push_back (free_arenas_ sessions) (arena r))
                            (push_back (free_txns_ sessions) (txn r)))
                         (erase (client_to_txn_ sessions) it)).
  { unfold release_txn, s1. simpl.
    rewrite (find_assign_same _ _ _ _ r' F). simpl.
    now rewrite erase_assign. }
  assert (E : find (erase (client_to_txn_ sessions) it) (session_id params) = None)
    by (eapply find_erase_same; eauto).
  simpl txn.
  destruct (ustore_transaction_commit (txn r)) as [[kind message]|];
    eexists _, _; (split; [reflexivity|]); rewrite R; simpl; auto.
Qed.

Lemma txn_commit_releases_the_session_witness :
  exists status sessions',
    DoAction_txn_commit Examples.commit_fails Examples.one_idle_session
      (Examples.txn_params Examples.alice "1") 5
    = (status, sessions') /\
    status = ExecutionError "write conflict" /\
    find (client_to_txn_ sessions') Examples.alice = None /\
    client_to_txn_ sessions' = [] /\
    free_arenas_ sessions' = [8192] /\
    free_txns_ sessions' = [4096].
Proof.
  apply (txn_commit_releases_the_session Examples.commit_fails
           Examples.one_idle_session (Examples.txn_params Examples.alice "1")
           5 (Uri.view "1") O
           {| txn := 4096; arena := 8192; last_access := 0;
              executing := false |});
    [ reflexivity
    | repeat constructor; simpl; tauto
    | reflexivity
    | reflexivity ].
Defined.

(** C10.  Whatever record [hold_txn] is given, the one it stores under the
    id is marked not executing; so is the one the destructor of a
    transactional [session_lock_t] stores, which it passes as executing.
    Hence, after any sequence of calls on a fresh manager, a session of the
    map that is marked executing is one that [continue_txn] has handed to a
    dispatcher and that has not been given back by [hold_txn] or
    [release_txn]: every session not so borrowed is marked not executing. *)
Theorem hold_txn_stores_not_executing :
  (forall (s : sessions_t) (sid : session_id_t) (r : running_txn_t),
     exists it,
       find (client_to_txn_ (hold_txn s sid r)) sid
       = Some (it, {| txn := txn r; arena := arena r;
                      last_access := last_access r; executing := false |})) /\
  (forall (s : sessions_t) (l : session_lock_t) (now : sys_time_t),
     lock_is_txn l = true ->
     exists it,
       find (client_to_txn_ (unlock s l now)) (lock_session_id l)
       = Some (it, {| txn := lock_txn l; arena := lock_arena l;
                      last_access := now; executing := false |})) /\
  (forall (n : nat) (calls : list call) (s : sessions_t) (g : ledger),
     run (make_sessions n, no_ledger) calls = Ret (s, g) ->
     forall sid r,
       In (sid, r) (client_to_txn_ s) -> executing r = true ->
       In sid (borrowed g)).
Proof.
  split; [|split].
  - intros s sid r. unfold hold_txn, submit. simpl.
    apply find_insert_or_assign.
  - intros s l now L. unfold unlock. rewrite L.
    unfold hold_txn, submit. simpl. apply find_insert_or_assign.
  - intros n calls s g R.
    apply run_keeps_borrowed in R as [_ I]; [exact I|constructor|].
    intros sid r [].
Qed.

Lemma hold_txn_stores_not_executing_witness :
  (exists it,
     find (client_to_txn_ (hold_txn (make_sessions 1) Examples.alice
                                    (Examples.begun 4096 8192 0)))
          Examples.alice
     = Some (it, {| txn := 4096; arena := 8192; last_access := 0;
                    executing := false |})) /\
  (exists it,
     find (client_to_txn_
             (unlock Examples.one_executing_session
                     {| lock_session_id := Examples.alice; lock_txn := 4096;
                        lock_arena := 8192 |} 5))
          Examples.alice
     = Some (it, {| txn := 4096; arena := 8192; last_access := 5;
                    executing := false |})) /\
  (forall sid r,
     In (sid, r) (client_to_txn_ Examples.executing_then_idle) ->
     executing r = true -> In sid [Examples.alice]).
Proof.
  split; [|split].
  - apply (proj1 hold_txn_stores_not_executing (make_sessions 1) Examples.alice
             (Examples.begun 4096 8192 0)).
  - apply (proj1 (proj2 hold_txn_stores_not_executing)
             Examples.one_executing_session
             {| lock_session_id := Examples.alice; lock_txn := 4096;
                lock_arena := 8192 |} 5).
    reflexivity.
  - apply (proj2 (proj2 hold_txn_stores_not_executing) 2%nat _
             Examples.executing_then_idle
             {| borrowed := [Examples.alice]; txns_out := 0; arenas_out := 0 |}
             executing_then_idle_is_reachable).
Defined.

End SessionLifecycle.

(** ** Arrow export: claims *)

Section ArrowClaims.

Import Arrow.
Local Open Scope Z_scope.

(** C7.  The format string of each column type, of the root struct and of a
    list column. *)
Theorem arrow_format_strings :
  ustore_doc_field_type_to_arrow_format ustore_doc_field_null_k = "n" /\
  ustore_doc_field_type_to_arrow_format ustore_doc_field_bool_k = "b" /\
  ustore_doc_field_type_to_arrow_format ustore_doc_field_i8_k = "c" /\
  ustore_doc_field_type_to_arrow_format ustore_doc_field_i16_k = "s" /\
  ustore_doc_field_type_to_arrow_format ustore_doc_field_i32_k = "i" /\
  ustore_doc_field_type_to_arrow_format ustore_doc_field_i64_k = "l" /\
  ustore_doc_field_type_to_arrow_format ustore_doc_field_u8_k = "C" /\
  ustore_doc_field_type_to_arrow_format ustore_doc_field_u16_k = "S" /\
  ustore_doc_field_type_to_arrow_format ustore_doc_field_u32_k = "I" /\
  ustore_doc_field_type_to_arrow_format ustore_doc_field_u64_k = "L" /\
  ustore_doc_field_type_to_arrow_format ustore_doc_field_f16_k = "e" /\
  ustore_doc_field_type_to_arrow_format ustore_doc_field_f32_k = "f" /\
  ustore_doc_field_type_to_arrow_format ustore_doc_field_f64_k = "g" /\
  ustore_doc_field_type_to_arrow_format ustore_doc_field_bin_k = "z" /\
  ustore_doc_field_type_to_arrow_format ustore_doc_field_str_k = "u" /\
  ustore_doc_field_type_to_arrow_format ustore_doc_field_uuid_k = "w:16" /\
  (forall buffers_malloc_ok malloc_ok docs_count fields_count schema array,
     ustore_to_arrow_schema buffers_malloc_ok malloc_ok docs_count fields_count
     = Ret (inr (schema, array)) ->
     format schema = "+s") /\
  (forall load_length buffers_malloc_ok malloc_ok child_malloc_ok docs_count
          field_name field_type validities offsets contents schema array,
     ustore_to_arrow_list load_length buffers_malloc_ok malloc_ok
       child_malloc_ok docs_count field_name field_type validities offsets
       contents
     = Ret (inr (schema, array)) ->
     format schema = "+l" /\
     exists child_array,
       schema_children schema
       = Some [Some {| format := ustore_doc_field_type_to_arrow_format field_type;
                       name := "chunks"; metadata := NULL; flags := 0;
                       schema_n_children := 0; schema_children := None;
                       schema_dictionary := NULL;
                       schema_release := release_malloced_schema |}] /\
       children array = Some [Some child_array]).
Proof.
  repeat (split; [reflexivity|]). split.
  - intros okb ok d f schema array. unfold ustore_to_arrow_schema.
    destruct okb, ok; simpl; try discriminate. now intros [= <- <-].
  - intros load okb ok ok' d nm t v o c schema array.
    unfold ustore_to_arrow_list, ustore_to_arrow_schema.
    destruct okb, ok; simpl; try discriminate.
    unfold ustore_to_arrow_column.
    destruct ok'; simpl; [|discriminate].
    destruct (column_n_buffers t =? 2); simpl.
    + intros [= <- <-]. simpl. eauto.
    + destruct (column_n_buffers t <? 3); simpl; [discriminate|].
      intros [= <- <-]. simpl. eauto.
Qed.

Lemma arrow_format_strings_witness :
  (exists root root_array,
     ustore_to_arrow_schema true true 3 2 = Ret (inr (root, root_array)) /\
     format root = "+s") /\
  (exists schema array,
     ustore_to_arrow_list Examples.three_at_index_one true true true 1
       "lists" ustore_doc_field_i32_k 0 20480 16384
     = Ret (inr (schema, array)) /\
     format schema = "+l").
Proof.
  pose proof arrow_format_strings as H.
  do 16 (destruct H as [_ H]). destruct H as [Hs Hl].
  split; eexists _, _; (split; [reflexivity|]).
  - apply (Hs true true 3 2 _ _ eq_refl).
  - apply (Hl Examples.three_at_index_one true true true 1 "lists"
              ustore_doc_field_i32_k 0 20480 16384 _ _ eq_refl).
Defined.






End ArrowClaims.

(** ** The dispatcher: claims *)

Section DispatcherClaims.

Import Uri Sessions Service.
Local Open Scope Z_scope.

(** C9 (the code departs from it).  The [offsets] column of a scan is not
    the [N + 1] offsets.  With three tasks for which the engine finds no
    key, its four offsets are all zero and the column is declared with no
    entry at all; with one task for which it finds three keys the column is
    declared three long, not two.  In both responses the column has the
    format [l], of 64-bit entries, and its content buffer is the array of
    the engine, whose entries are [ustore_length_t]. *)
Lemma scan_offsets_column_is_not_one_longer_than_the_input :
  (exists schema array keys_schema offsets_schema keys_array offsets_array,
     DoExchange_scan Samples.all_zero Samples.scan_finds_nothing
       Examples.plain_lock 4096 8192 3 true true true true
     = Ret (OK, Some (schema, array)) /\
     Arrow.schema_children schema
     = Some [Some keys_schema; Some offsets_schema] /\
     Arrow.children array = Some [Some keys_array; Some offsets_array] /\
     Arrow.name offsets_schema = "offsets" /\
     Arrow.format offsets_schema = "l" /\
     Arrow.buffers offsets_array = [0; 20480] /\
     Arrow.length offsets_array = 0 /\
     Arrow.length offsets_array <> 3 + 1) /\
  (exists schema array keys_array offsets_array,
     DoExchange_scan Examples.three_at_index_one Examples.scan_finds_three
       Examples.plain_lock 4096 8192 1 true true true true
     = Ret (OK, Some (schema, array)) /\
     Arrow.children array = Some [Some keys_array; Some offsets_array] /\
     Arrow.length offsets_array = 3 /\
     Arrow.length offsets_array <> 1 + 1).
Proof.
  split.
  - eexists _, _, _, _, _, _. split; [reflexivity|].
    split; [reflexivity|]. split; [reflexivity|].
    repeat (split; [reflexivity|]). discriminate.
  - eexists _, _, _, _. split; [reflexivity|]. split; [reflexivity|].
    split; [reflexivity|discriminate].
Qed.

(** What the scan branch does build.  Every scan that is answered [OK]
    answers with a struct of exactly two columns: [keys] and [offsets], both
    of format [l] (64-bit signed), both not nullable, both as long as the
    batch, which is the number the engine left at index [tasks_count] of
    its offsets, the total of the keys found; the content buffers are the
    engine's key array and the engine's offsets array. *)
Theorem scan_response_columns
    (load_length : Z -> Z -> Z)
    (ustore_scan : ustore_transaction_t -> ustore_arena_t -> Z -> scan_found)
    (session : session_lock_t) (input_start_keys input_lengths tasks_count : Z)
    (buffers_malloc_ok schema_malloc_ok keys_malloc_ok offsets_malloc_ok : bool)
    (batch : option (Arrow.ArrowSchema * Arrow.ArrowArray)) :
  DoExchange_scan load_length ustore_scan session input_start_keys input_lengths
    tasks_count buffers_malloc_ok schema_malloc_ok keys_malloc_ok
    offsets_malloc_ok
  = Ret (OK, batch) ->
  batch =
  Some ({| Arrow.format := "+s"; Arrow.name := ""; Arrow.metadata := 0;
           Arrow.flags := 0; Arrow.schema_n_children := 2;
           Arrow.schema_children :=
             Some [Some {| Arrow.format := "l"; Arrow.name := "keys";
                           Arrow.metadata := 0; Arrow.flags := 0;
                           Arrow.schema_n_children := 0;
                           Arrow.schema_children := None;
                           Arrow.schema_dictionary := 0;
                           Arrow.schema_release :=
                             Arrow.release_malloced_schema |};
                   Some {| Arrow.format := "l"; Arrow.name := "offsets";
                           Arrow.metadata := 0; Arrow.flags := 0;
                           Arrow.schema_n_children := 0;
                           Arrow.schema_children := None;
                           Arrow.schema_dictionary := 0;
                           Arrow.schema_release :=
                             Arrow.release_malloced_schema |}];
           Arrow.schema_dictionary := 0;
           Arrow.schema_release := Arrow.release_malloced_schema |},
        let found :=
          ustore_scan (lock_txn session) (lock_arena session) tasks_count in
        let total :=
          Arrow.to_int64 (load_length (found_offsets found) tasks_count) in
        {| Arrow.length := total; Arrow.null_count := 0;
           Arrow.offset := 0; Arrow.n_buffers := 1;
           Arrow.n_children := 2; Arrow.buffers := [0];
           Arrow.children :=
             Some [Some {| Arrow.length := total; Arrow.null_count := 0;
                           Arrow.offset := 0; Arrow.n_buffers := 2;
                           Arrow.n_children := 0;
                           Arrow.buffers := [0; found_keys found];
                           Arrow.children := None;
                           Arrow.dictionary := 0;
                           Arrow.release := Arrow.release_malloced_array |};
                   Some {| Arrow.length := total; Arrow.null_count := 0;
                           Arrow.offset := 0; Arrow.n_buffers := 2;
                           Arrow.n_children := 0;
                           Arrow.buffers := [0; found_offsets found];
                           Arrow.children := None;
                           Arrow.dictionary := 0;
                           Arrow.release := Arrow.release_malloced_array |}];
           Arrow.dictionary := 0;
           Arrow.release := Arrow.release_malloced_array |}).
Proof.
  unfold DoExchange_scan.
  destruct (input_start_keys =? 0); [discriminate|].
  destruct (input_lengths =? 0); [discriminate|]. cbn [orb].
  destruct (scan_error _); [discriminate|].
  destruct buffers_malloc_ok; [|discriminate].
  destruct schema_malloc_ok; [|discriminate].
  destruct keys_malloc_ok; [|discriminate].
  destruct offsets_malloc_ok; [|discriminate].
  intros [= <-]. reflexivity.
Qed.

Lemma scan_response_columns_witness :
  exists batch,
    DoExchange_scan Examples.three_at_index_one Examples.scan_finds_three
      Examples.plain_lock 4096 8192 1 true true true true
    = Ret (OK, batch) /\
    option_map (fun b => (Arrow.schema_n_children (fst b),
                          Arrow.n_children (snd b),
                          Arrow.length (snd b))) batch
    = Some (2, 2, 3).
Proof.
  eexists. split; [reflexivity|].
  exact (f_equal
           (option_map (fun b => (Arrow.schema_n_children (fst b),
                                  Arrow.n_children (snd b),
                                  Arrow.length (snd b))))
           (scan_response_columns Examples.three_at_index_one
              Examples.scan_finds_three Examples.plain_lock 4096 8192 1
              true true true true _ eq_refl)).
Defined.

End DispatcherClaims.

(** ** Transaction ids: claims *)

Section TransactionIds.

Import Uri Sessions Service.
Local Open Scope Z_scope.







(** A [txn] that stands without a value gives [strtoull] the null
    [data()] of an empty view. *)
Lemma txn_without_a_value_reads_a_null_pointer
    (client : client_id_t) (uri : string) (params_offs : nat) :
  find_question_mark uri = Some params_offs ->
  param_value (drop params_offs uri) kParamTransactionID
  = Ret (Some empty_view) ->
  session_params client uri = Undefined.
Proof.
  intros Hq Hv. unfold session_params. rewrite Hq. cbv zeta. rewrite Hv.
  reflexivity.
Qed.



End TransactionIds.

(** ** The verb of a request *)

Section Verbs.

Import Uri Service.
Local Open Scope nat_scope.

Lemma substring_append (a b : string) :
  substring 0 (length a) (a ++ b) = a.
Proof.
  induction a as [|c a IH]; simpl.
  - now destruct b.
  - now rewrite IH.
Qed.

Lemma get_append (a b : string) :
  get (length a) (a ++ b) = get 0 b.
Proof.
  induction a as [|c a IH]; simpl; auto.
Qed.

Lemma length_append (a b : string) :
  length (a ++ b) = length a + length b.
Proof.
  induction a as [|c a IH]; simpl; auto.
Qed.

Lemma split_at (uri : string) :
  forall n c, get n uri = Some c ->
  uri = substring 0 n uri ++ String c (drop (S n) uri).
Proof.
  induction uri as [|a uri IH]; intros [|n] c; simpl; try discriminate.
  - intros [= ->]. reflexivity.
  - intros H. f_equal. now apply IH.
Qed.

(** [is_query] holds of the name itself and of the name followed by a
    question mark and anything. *)
Lemma is_query_spec (uri name : string) :
  is_query uri name = true <->
  uri = name \/ exists rest, uri = name ++ String "?" rest.
Proof.
  unfold is_query. split.
  - destruct (Nat.ltb_spec (length name) (length uri)) as [L|L].
    + intros H. apply andb_true_iff in H as [E G].
      apply String.eqb_eq in E.
      destruct (get (length name) uri) as [c|] eqn:Hc; [|discriminate].
      apply Ascii.eqb_eq in G. subst c.
      right. exists (drop (S (length name)) uri).
      pose proof (split_at uri _ _ Hc) as S. now rewrite E in S.
    + intros H. apply String.eqb_eq in H. now left.
  - intros [->|[rest ->]].
    + rewrite Nat.ltb_irrefl. apply String.eqb_refl.
    + rewrite length_append. simpl.
      destruct (Nat.ltb_spec (length name) (length name + S (length rest)));
        [|lia].
      rewrite substring_append, String.eqb_refl, get_append. reflexivity.
Qed.

Lemma find_question_mark_append (name rest : string) :
  find_question_mark name = None ->
  find_question_mark (name ++ String "?" rest) = Some (length name).
Proof.
  induction name as [|c name IH]; simpl; [reflexivity|].
  destruct (Ascii.eqb c "?"); [discriminate|].
  destruct (find_question_mark name); [discriminate|].
  intros _. now rewrite IH.
Qed.

Lemma find_question_mark_get (uri : string) (p : nat) :
  find_question_mark uri = Some p -> get p uri = Some "?"%char.
Proof.
  revert p; induction uri as [|c uri IH]; intros p; simpl; [discriminate|].
  destruct (Ascii.eqb_spec c "?") as [->|N].
  - now intros [= <-].
  - destruct (find_question_mark uri) as [m|]; [|discriminate].
    intros [= <-]. now apply IH.
Qed.

(** The dispatchers and [session_params] cut a request at the same place.
    For a name without a question mark, as every verb of the protocol is,
    [is_query] holds exactly when the name is the request up to the first
    question mark, the position from which [session_params] reads the
    parameters; so a request answers to at most one such name, and the
    order in which a dispatcher tries them does not matter. *)
Theorem is_query_selects_the_verb (uri name : string) :
  find_question_mark name = None ->
  (is_query uri name = true <->
   name = match find_question_mark uri with
          | Some params_offs => substring 0 params_offs uri
          | None => uri
          end).
Proof.
  intros Hn. rewrite is_query_spec. split.
  - intros [->|[rest ->]].
    + now rewrite Hn.
    + rewrite (find_question_mark_append _ _ Hn).
      now rewrite substring_append.
  - destruct (find_question_mark uri) as [p|] eqn:F.
    + intros ->. right. exists (drop (S p) uri).
      apply split_at. now apply find_question_mark_get.
    + intros ->. now left.
Qed.

Lemma is_query_selects_the_verb_witness :
  find_question_mark kFlightTxnBegin = None /\
  (is_query "txn_begin?txn=1f&flush" kFlightTxnBegin = true <->
   kFlightTxnBegin = substring 0 9 "txn_begin?txn=1f&flush").
Proof.
  split; [reflexivity|].
  exact (is_query_selects_the_verb "txn_begin?txn=1f&flush" kFlightTxnBegin
           eq_refl).
Defined.

End Verbs.

(** ** Reading a parameter back *)

Section ReadingBack.

Import Uri.
Local Open Scope nat_scope.

Lemma prefix_append (k t : string) : prefix k (k ++ t) = true.
Proof.
  induction k as [|c k IH]; simpl.
  - now destruct t.
  - destruct (ascii_dec c c); [assumption|congruence].
Qed.

Lemma drop_append (a b : string) : drop (length a) (a ++ b) = b.
Proof.
  induction a as [|c a IH]; simpl; auto.
Qed.

Lemma substring_drop (n m : nat) (s : string) :
  substring n m s = substring 0 m (drop n s).
Proof.
  revert s; induction n as [|n IH]; intros s; simpl; [reflexivity|].
  destruct s as [|c s]; simpl.
  - now destruct m.
  - apply IH.
Qed.

Lemma find_append (v tail : string) (c : ascii) :
  find v c = length v ->
  tail = "" \/ (exists rest, tail = String c rest) ->
  find (v ++ tail) c = length v.
Proof.
  intros Hv Ht. induction v as [|a v IH]; simpl in *.
  - destruct Ht as [->|[rest ->]]; simpl; [reflexivity|].
    now rewrite Ascii.eqb_refl.
  - destruct (Ascii.eqb a c); [discriminate|].
    f_equal. apply IH. congruence.
Qed.

(** A parameter written as [?key=value] at the head of the query, alone or
    followed by [&] and more, is read back: for a key that does not start
    with a question mark and a value without [&], [param_value] returns the
    value. *)
Theorem param_value_reads_back (c : ascii) (k value tail : string) :
  c <> "?"%char ->
  find value "&" = length value ->
  tail = "" \/ (exists rest, tail = String "&" rest) ->
  param_value (String "?" (String c k ++ String "=" (value ++ tail)))
              (String c k)
  = Ret (Some (view value)).
Proof.
  intros Hc Hv Ht.
  set (key := String c k).
  set (q := String "?" (key ++ String "=" (value ++ tail))).
  assert (Lq : length q = S (length key + S (length (value ++ tail)))).
  { unfold q. cbn [length]. rewrite length_append. reflexivity. }
  assert (S1 : search (drop 0 q) key 0 = 1).
  { cbn [drop]. unfold q. cbn [search].
    assert (P0 : prefix key (String "?" (key ++ String "=" (value ++ tail)))
                 = false).
    { unfold key. cbn [prefix].
      destruct (ascii_dec c "?"); [contradiction|reflexivity]. }
    rewrite P0.
    destruct (key ++ String "=" (value ++ tail)) as [|d rest] eqn:E.
    - unfold key in E. discriminate.
    - cbn [search]. rewrite <- E, prefix_append. reflexivity. }
  unfold param_value. cbn [param_value_loop]. rewrite S1.
  destruct (Nat.eqb_spec 1 (length q)) as [E|_]; [lia|].
  destruct (Nat.eqb_spec (1 + length key) (length q)) as [E|_]; [lia|].
  assert (G0 : get 0 q = Some "?"%char) by reflexivity.
  rewrite G0. cbn [Ascii.eqb Bool.eqb negb andb].
  assert (G1 : get (1 + length key) q = Some "="%char).
  { unfold q. cbn [Nat.add get]. now rewrite get_append. }
  rewrite G1. cbn [Ascii.eqb Bool.eqb andb].
  assert (D : drop (1 + length key + 1) q = value ++ tail).
  { unfold q. replace (1 + length key + 1) with (S (length key + 1)) by lia.
    cbn [drop]. rewrite <- drop_drop, drop_append. reflexivity. }
  rewrite D, (find_append _ _ _ Hv Ht).
  replace (1 + length key + 1 + length value - (1 + length key + 1))
    with (length value) by lia.
  rewrite substring_drop, D, substring_append. reflexivity.
Qed.

Lemma param_value_reads_back_witness :
  param_value "?col=1f&txn=2" "col" = Ret (Some (view "1f")).
Proof.
  apply (param_value_reads_back "c" "ol" "1f" "&txn=2").
  - discriminate.
  - reflexivity.
  - right. now exists "txn=2".
Defined.

End ReadingBack.

(** ** The session manager: how its operations compose *)

Section ManagerComposition.

Import Sessions Trace.
Local Open Scope Z_scope.

Lemma push_back_pop_back (v : list Z) :
  empty v = false -> push_back (pop_back v) (back v) = v.
Proof.
  unfold push_back, pop_back, back. intros H.
  symmetry. apply app_removelast_last. now destruct v.
Qed.

(** The node [std::min_element] settles on, with the lambda of [pop]: unless
    it is the first node of the map it is not executing, and it is no
    younger than the first node and than every node that is not executing. *)
Lemma min_element_from_selects (rest : client_to_txn_t) :
  forall (m : client_to_txn_t) smallest best first it r,
  nth_error m smallest = Some best ->
  (forall i e, nth_error rest i = Some e -> nth_error m (first + i) = Some e) ->
  (forall j e, (j < first)%nat -> nth_error m j = Some e ->
               executing (snd e) = false ->
               last_access (snd best) <= last_access (snd e)) ->
  (smallest <> O -> executing (snd best) = false) ->
  (forall e, nth_error m O = Some e ->
             last_access (snd best) <= last_access (snd e)) ->
  List.length m = (first + List.length rest)%nat ->
  min_element_from smallest best first rest = (it, r) ->
  (it <> O -> executing r = false) /\
  (forall e, nth_error m O = Some e -> last_access r <= last_access (snd e)) /\
  (forall j e, nth_error m j = Some e -> executing (snd e) = false ->
               last_access r <= last_access (snd e)).
Proof.
  induction rest as [|x rest IH];
    intros m smallest best first it r Hb Hr Hseen Hx H0 Hlen; cbn [min_element_from].
  - intros [= <- <-]. split; [auto|]. split; [auto|].
    intros j e Hj He. apply (Hseen j e); auto.
    assert (j < List.length m)%nat by (apply nth_error_Some; congruence).
    simpl in Hlen. lia.
  - assert (Hfirst : nth_error m first = Some x).
    { rewrite <- (Nat.add_0_r first). now apply Hr. }
    assert (Hr' : forall i e, nth_error rest i = Some e ->
                              nth_error m (S first + i) = Some e).
    { intros i e He. replace (S first + i)%nat with (first + S i)%nat by lia.
      now apply Hr. }
    assert (Hlen' : List.length m = (S first + List.length rest)%nat)
      by (simpl in Hlen; lia).
    unfold aging_less.
    destruct (Z.ltb_spec (last_access (snd x)) (last_access (snd best)))
      as [Hlt|Hge]; cbn [andb].
    + destruct (executing (snd x)) eqn:Ex; cbn [negb].
      * apply (IH m smallest best (S first)); auto.
        intros j e Hj He Hidle.
        destruct (Nat.eq_dec j first) as [->|Hne].
        -- congruence.
        -- apply (Hseen j e); auto. lia.
      * apply (IH m first x (S first)); auto.
        -- intros j e Hj He Hidle.
           destruct (Nat.eq_dec j first) as [->|Hne].
           ++ assert (e = x) by congruence. subst e. lia.
           ++ specialize (Hseen j e). assert (j < first)%nat by lia.
              specialize (Hseen H He Hidle). lia.
        -- intros e He. specialize (H0 e He). lia.
    + apply (IH m smallest best (S first)); auto.
      intros j e Hj He Hidle.
      destruct (Nat.eq_dec j first) as [->|Hne].
      * assert (e = x) by congruence. subst e. lia.
      * apply (Hseen j e); auto. lia.
Qed.

(** When [pop] evicts, the session it evicts is not executing and no
    session that is not executing is older: it is an oldest idle one. *)
Theorem pop_evicts_an_oldest_idle_session (s s' : sessions_t)
    (now : sys_time_t) (r : running_txn_t) :
  pop s now = Ret (s', r, None) ->
  exists it k victim,
    nth_error (client_to_txn_ s) it = Some (k, victim) /\
    executing victim = false /\
    s' = with_map s (erase (client_to_txn_ s) it) /\
    r = victim /\
    forall j k' v,
      nth_error (client_to_txn_ s) j = Some (k', v) -> executing v = false ->
      last_access victim <= last_access v.
Proof.
  unfold pop.
  destruct (min_element (client_to_txn_ s)) as [[it victim]|] eqn:M;
    [|discriminate].
  pose proof (min_element_nth _ _ _ M) as [k Hk].
  destruct (count_less_than_timeout _ _); cbn [orb]; [discriminate|].
  destruct (executing victim) eqn:X; [discriminate|].
  intros [= <- <-]. exists it, k, victim. repeat split; auto.
  - destruct victim; simpl in *. now subst.
  - intros j k' v Hj Hv.
    destruct (client_to_txn_ s) as [|e m] eqn:Em; [discriminate|].
    simpl in M. injection M as M.
    pose proof (min_element_from_selects m (e :: m) O e 1%nat it victim
                  eq_refl) as S.
    destruct S as (_ & _ & S); auto.
    + intros j0 e0 Hlt He0 _. assert (j0 = O) by lia. subst j0.
      simpl in He0. injection He0 as <-. lia.
    + congruence.
    + intros e0 [= <-]. lia.
    + apply (S j (k', v)); auto.
Qed.

Lemma pop_evicts_an_oldest_idle_session_witness :
  exists s' r,
    pop Samples.two_idle_sessions (100 * Examples.one_second) = Ret (s', r, None) /\
    exists it k victim,
      nth_error (client_to_txn_ Samples.two_idle_sessions) it = Some (k, victim) /\
      executing victim = false /\
      s' = with_map Samples.two_idle_sessions
             (erase (client_to_txn_ Samples.two_idle_sessions) it) /\
      r = victim /\
      forall j k' v,
        nth_error (client_to_txn_ Samples.two_idle_sessions) j = Some (k', v) ->
        executing v = false -> last_access victim <= last_access v.
Proof.
  eexists _, _. split; [reflexivity|].
  apply (pop_evicts_an_oldest_idle_session Samples.two_idle_sessions _
           (100 * Examples.one_second) _).
  reflexivity.
Defined.

Lemma find_erase_other (m : client_to_txn_t) (sid : session_id_t)
    (it itv : nat) (r : running_txn_t) :
  find m sid = Some (it, r) -> itv <> it ->
  exists it', find (erase m itv) sid = Some (it', r).
Proof.
  revert it itv; induction m as [|[k v] m IH]; intros it itv; simpl;
    [discriminate|].
  destruct (session_id_eqb k sid) eqn:E.
  - intros [= <- <-] N. destruct itv as [|itv]; [congruence|].
    simpl. rewrite E. now exists O.
  - destruct (find m sid) as [[j w]|] eqn:F; [|discriminate].
    intros [= <- <-] N. destruct itv as [|itv]; simpl.
    + now exists j.
    + rewrite E. destruct (IH j itv eq_refl) as [it' ->]; [congruence|].
      simpl. now exists (S it').
Qed.

Lemma find_erase_absent (m : client_to_txn_t) (sid : session_id_t) (it : nat) :
  find m sid = None -> find (erase m it) sid = None.
Proof.
  rewrite !find_None. intros H N. apply H. eapply keys_erase; eauto.
Qed.

(** A session that is executing outlives every eviction: whatever
    [request_txn] or [request_arena] returns, the session is still in the
    map, with the record it had. *)
Theorem executing_session_is_never_evicted (s s' : sessions_t)
    (sid : session_id_t) (it : nat) (r : running_txn_t) :
  find (client_to_txn_ s) sid = Some (it, r) -> executing r = true ->
  (forall other now_pop now got e,
     request_txn s other now_pop now = Ret (s', got, e) ->
     exists it', find (client_to_txn_ s') sid = Some (it', r)) /\
  (forall now_pop a e,
     request_arena s now_pop = Ret (s', a, e) ->
     exists it', find (client_to_txn_ s') sid = Some (it', r)).
Proof.
  intros F X.
  assert (P : forall itv k victim,
             nth_error (client_to_txn_ s) itv = Some (k, victim) ->
             executing victim = false ->
             exists it', find (erase (client_to_txn_ s) itv) sid = Some (it', r)).
  { intros itv k victim Hn Hv. eapply find_erase_other; eauto.
    intros ->. apply find_Some in F. congruence. }
  split.
  - intros other now_pop now got e R.
    apply request_txn_Ret in R
      as [(_ & -> & _)|(_ & [(itv & k & v & Hn & Hv & -> & _)|(_ & _ & -> & _)])];
      simpl; eauto.
  - intros now_pop a e R.
    apply request_arena_Ret in R
      as [(_ & -> & _)|(_ & [(itv & k & v & _ & Hn & Hv & -> & _)|(_ & -> & _)])];
      simpl; eauto.
Qed.

Lemma executing_session_is_never_evicted_witness :
  find (client_to_txn_ Samples.idle_then_executing) Examples.alice
  = Some (1%nat, Examples.begun 4096 8192 0) /\
  executing (Examples.begun 4096 8192 0) = true /\
  (forall other now_pop now got e,
     request_txn Samples.idle_then_executing other now_pop now
     = Ret (Examples.one_executing_session, got, e) ->
     exists it', find (client_to_txn_ Examples.one_executing_session) Examples.alice
                 = Some (it', Examples.begun 4096 8192 0)) /\
  (forall now_pop a e,
     request_arena Samples.idle_then_executing now_pop
     = Ret (Examples.one_executing_session, a, e) ->
     exists it', find (client_to_txn_ Examples.one_executing_session) Examples.alice
                 = Some (it', Examples.begun 4096 8192 0)).
Proof.
  split; [reflexivity|]. split; [reflexivity|].
  apply (executing_session_is_never_evicted Samples.idle_then_executing
           Examples.one_executing_session Examples.alice 1%nat
           (Examples.begun 4096 8192 0)); reflexivity.
Defined.

(** [request_txn] hands a record out without inserting it: when it fails the
    manager is as before, and when it succeeds the record is marked
    executing and stamped with the time of the call, while the map still
    has no session under the id. *)
Theorem request_txn_hands_out_without_inserting (s s' : sessions_t)
    (sid : session_id_t) (now_pop now : sys_time_t) (r : running_txn_t)
    (e : ustore_error_t) :
  request_txn s sid now_pop now = Ret (s', r, e) ->
  match e with
  | Some _ => s' = s /\ r = running_txn_default
  | None =>
    executing r = true /\ last_access r = now /\
    find (client_to_txn_ s) sid = None /\
    find (client_to_txn_ s') sid = None
  end.
Proof.
  intros R. pose proof R as R0.
  apply request_txn_Ret in R
    as [(He & -> & ->)|(-> & [(it & k & v & _ & _ & -> & ->)|(_ & _ & -> & ->)])].
  - destruct e; [auto|congruence].
  - assert (F : find (client_to_txn_ s) sid = None).
    { unfold request_txn in R0.
      destruct (find (client_to_txn_ s) sid); [discriminate|reflexivity]. }
    simpl. repeat split; auto. now apply find_erase_absent.
  - assert (F : find (client_to_txn_ s) sid = None).
    { unfold request_txn in R0.
      destruct (find (client_to_txn_ s) sid); [discriminate|reflexivity]. }
    simpl. auto.
Qed.

Lemma request_txn_hands_out_without_inserting_witness :
  exists s' r,
    request_txn Samples.one_free_slot Examples.bob 0 Examples.one_second
    = Ret (s', r, None) /\
    executing r = true /\ last_access r = Examples.one_second /\
    find (client_to_txn_ Samples.one_free_slot) Examples.bob = None /\
    find (client_to_txn_ s') Examples.bob = None.
Proof.
  eexists _, _. split; [reflexivity|].
  apply (request_txn_hands_out_without_inserting Samples.one_free_slot _
           Examples.bob 0 Examples.one_second _ None).
  reflexivity.
Defined.

(** Storing a record with [hold_txn] and releasing the session with
    [release_txn] amounts to returning the record's two handles to the free
    stacks, and to erasing the session that was there under the id, if one
    was. *)
Theorem hold_txn_then_release_txn (s : sessions_t) (sid : session_id_t)
    (r : running_txn_t) :
  release_txn (hold_txn s sid r) sid
  = with_map (release_txn_record s r)
      (match find (client_to_txn_ s) sid with
       | Some (it, _) => erase (client_to_txn_ s) it
       | None => client_to_txn_ s
       end).
Proof.
  unfold hold_txn, submit, release_txn, release_txn_record, insert_or_assign.
  destruct (find (client_to_txn_ s) sid) as [[it w]|] eqn:F; simpl.
  - rewrite (find_assign_same _ _ _ _ (set_executing r false) F). simpl.
    now rewrite erase_assign.
  - now rewrite session_id_eqb_refl.
Qed.

(** A request outside any transaction that finds an arena on the free stack
    borrows it, and the end of the request puts it back: the manager is
    exactly as it was. *)
Theorem plain_lock_round_trip (s : sessions_t) (sid : session_id_t)
    (now now' : sys_time_t) :
  session_is_txn sid = false ->
  empty (free_arenas_ s) = false ->
  exists s1 l,
    lock s sid now = Ret (s1, l, None) /\
    lock_txn l = nullptr /\
    lock_arena l = back (free_arenas_ s) /\
    client_to_txn_ s1 = client_to_txn_ s /\
    unlock s1 l now' = s.
Proof.
  intros Hid He. unfold lock, request_arena. rewrite Hid, He. cbn [bind].
  eexists _, _. split; [reflexivity|]. repeat split.
  unfold unlock, lock_is_txn, release_arena. simpl.
  rewrite push_back_pop_back by assumption. now destruct s.
Qed.

Lemma plain_lock_round_trip_witness :
  session_is_txn Samples.nobody = false /\
  empty (free_arenas_ Samples.one_free_slot) = false /\
  exists s1 l,
    lock Samples.one_free_slot Samples.nobody 0 = Ret (s1, l, None) /\
    lock_txn l = nullptr /\
    lock_arena l = back (free_arenas_ Samples.one_free_slot) /\
    client_to_txn_ s1 = client_to_txn_ Samples.one_free_slot /\
    unlock s1 l Examples.one_second = Samples.one_free_slot.
Proof.
  split; [reflexivity|]. split; [reflexivity|].
  apply (plain_lock_round_trip Samples.one_free_slot Samples.nobody 0
           Examples.one_second); reflexivity.
Defined.

(** With no arena on the free stack the same request evicts a session; at
    its end both handles of the evicted session are on the free stacks. *)
Theorem plain_lock_after_eviction (s s' : sessions_t) (sid : session_id_t)
    (now now' : sys_time_t) (victim : running_txn_t) :
  session_is_txn sid = false ->
  empty (free_arenas_ s) = true ->
  pop s now = Ret (s', victim, None) ->
  exists s1 l,
    lock s sid now = Ret (s1, l, None) /\
    unlock s1 l now' = release_txn_record s' victim.
Proof.
  intros Hid He P. unfold lock, request_arena. rewrite Hid, He, P. cbn [bind].
  eexists _, _. split; [reflexivity|].
  unfold unlock, lock_is_txn, release_arena, release_txn_record. simpl.
  reflexivity.
Qed.

Lemma plain_lock_after_eviction_witness :
  exists s' victim,
    pop Samples.two_idle_sessions (100 * Examples.one_second)
    = Ret (s', victim, None) /\
    exists s1 l,
      lock Samples.two_idle_sessions Samples.nobody (100 * Examples.one_second)
      = Ret (s1, l, None) /\
      unlock s1 l (101 * Examples.one_second) = release_txn_record s' victim.
Proof.
  eexists _, _. split; [reflexivity|].
  apply (plain_lock_after_eviction Samples.two_idle_sessions _ Samples.nobody
           (100 * Examples.one_second) (101 * Examples.one_second) _);
    reflexivity.
Defined.

(** A request inside a transaction whose session is idle takes the session
    for the time of the request and gives it back idle, stamped with the
    time of the end of the request; no other session and no free stack
    changes.  The transaction handle is not null: the lock tells a
    transaction by its handle. *)
Theorem txn_lock_round_trip (s : sessions_t) (sid : session_id_t)
    (now now' : sys_time_t) (it : nat) (r : running_txn_t) :
  session_is_txn sid = true ->
  find (client_to_txn_ s) sid = Some (it, r) ->
  executing r = false ->
  txn r <> nullptr ->
  exists s1 l,
    lock s sid now = Ret (s1, l, None) /\
    lock_txn l = txn r /\ lock_arena l = arena r /\
    find (client_to_txn_ s1) sid
    = Some (it, {| txn := txn r; arena := arena r; last_access := now;
                   executing := true |}) /\
    unlock s1 l now'
    = with_map s (assign (client_to_txn_ s) it
                    {| txn := txn r; arena := arena r; last_access := now';
                       executing := false |}).
Proof.
  intros Hid F X Hn. unfold lock, continue_txn. rewrite Hid, F, X.
  eexists _, _. split; [reflexivity|]. simpl.
  split; [reflexivity|]. split; [reflexivity|].
  split; [eapply find_assign_same; eauto|].
  unfold unlock, lock_is_txn. simpl.
  apply Z.eqb_neq in Hn. rewrite Hn. simpl.
  unfold hold_txn, submit, insert_or_assign. simpl.
  rewrite (find_assign_same _ _ _ _ _ F). unfold with_map. simpl.
  f_equal. clear. revert it.
  induction (client_to_txn_ s) as [|[k v] m IH]; intros [|it]; simpl; auto.
  now rewrite IH.
Qed.

Lemma txn_lock_round_trip_witness :
  exists s1 l,
    lock Examples.one_idle_session Examples.alice Examples.one_second
    = Ret (s1, l, None) /\
    lock_txn l = 4096 /\ lock_arena l = 8192 /\
    find (client_to_txn_ s1) Examples.alice
    = Some (O, Examples.begun 4096 8192 Examples.one_second) /\
    unlock s1 l (2 * Examples.one_second)
    = with_map Examples.one_idle_session
        [(Examples.alice,
          {| txn := 4096; arena := 8192; last_access := 2 * Examples.one_second;
             executing := false |})].
Proof.
  apply (txn_lock_round_trip Examples.one_idle_session Examples.alice
           Examples.one_second (2 * Examples.one_second) O
           {| txn := 4096; arena := 8192; last_access := 0;
              executing := false |});
    [reflexivity | reflexivity | reflexivity | discriminate].
Defined.

(** A lock that is refused leaves the manager as it was and holds two null
    handles. *)
Lemma lock_refused (s s' : sessions_t) (sid : session_id_t) (now : sys_time_t)
    (l : session_lock_t) (e : error_kind * string) :
  lock s sid now = Ret (s', l, Some e) ->
  s' = s /\ l = {| lock_session_id := sid; lock_txn := nullptr;
                   lock_arena := nullptr |}.
Proof.
  unfold lock. destruct (session_is_txn sid).
  - unfold continue_txn.
    destruct (find (client_to_txn_ s) sid) as [[it r]|].
    + destruct (executing r); intros [= <- <- _]; auto.
    + intros [= <- <- _]; auto.
  - destruct (request_arena s now) as [[[s1 a] e1]| |] eqn:R; cbn [bind];
      [|discriminate|discriminate].
    intros [= <- <- ->].
    apply request_arena_Ret in R
      as [(_ & -> & ->)|(N & _)]; [auto|discriminate].
Qed.

(** The destructor of a refused lock still runs at the end of the request,
    finds no transaction handle and releases the null arena: the free stack
    of arenas grows by a null handle. *)
Theorem refused_lock_pushes_a_null_arena (s s' : sessions_t)
    (sid : session_id_t) (now now' : sys_time_t) (l : session_lock_t)
    (e : error_kind * string) :
  lock s sid now = Ret (s', l, Some e) ->
  s' = s /\
  unlock s' l now'
  = with_free s (push_back (free_arenas_ s) nullptr) (free_txns_ s) /\
  arena_slots (unlock s' l now') = arena_slots s + 1.
Proof.
  intros L. apply lock_refused in L as [-> ->].
  split; [reflexivity|].
  unfold unlock, lock_is_txn, release_arena, arena_slots. simpl.
  split; [reflexivity|]. unfold ustore_arena_t.
  rewrite length_push_back. lia.
Qed.

Lemma refused_lock_pushes_a_null_arena_witness :
  exists l e,
    lock Examples.executing_then_idle Samples.nobody 0
    = Ret (Examples.executing_then_idle, l, Some e) /\
    unlock Examples.executing_then_idle l Examples.one_second
    = with_free Examples.executing_then_idle [nullptr] [] /\
    arena_slots (unlock Examples.executing_then_idle l Examples.one_second)
    = arena_slots Examples.executing_then_idle + 1.
Proof.
  eexists _, _. split; [reflexivity|].
  apply (refused_lock_pushes_a_null_arena Examples.executing_then_idle _
           Samples.nobody 0 Examples.one_second _ _ eq_refl).
Defined.

End ManagerComposition.

(** ** Snapshot ids and the verbs that drop *)

Section Dropping.

Import Uri Sessions Service Handlers.
Local Open Scope Z_scope.

Variable ustore_collection_main_k : Z.
Variable ustore_collection_drop : Z -> ustore_drop_mode_t -> ustore_error_t.
Variable ustore_snapshot_drop : Z -> ustore_error_t.

Lemma dec_digits_append (s : string) (c : ascii) (rest : string) :
  dec_digit c = None ->
  forall acc count,
    dec_digits (s ++ String c rest) acc count = dec_digits s acc count.
Proof.
  intros Hc. induction s as [|a s IH]; intros acc count; simpl.
  - now rewrite Hc.
  - destruct (dec_digit a); auto.
Qed.

(** [parse_snap_id] reads the decimal digits at the head of the value and
    ignores whatever follows them, where [parse_u64_hex] gives up on the
    whole value; a value that starts with anything but a digit gives the
    default. *)
Theorem parse_snap_id_ignores_what_follows_the_digits (s : string)
    (c : ascii) (rest : string) (default_ : base_id_t) :
  dec_digit c = None ->
  parse_snap_id (view (s ++ String c rest)) default_
  = parse_snap_id (view s) default_ /\
  parse_snap_id (view (String c rest)) default_ = default_.
Proof.
  intros Hc. unfold parse_snap_id, from_chars. split.
  - now rewrite dec_digits_append.
  - simpl. now rewrite Hc.
Qed.

Lemma parse_snap_id_ignores_what_follows_the_digits_witness :
  dec_digit "x" = None /\
  parse_snap_id (view "42x7") 5 = parse_snap_id (view "42") 5 /\
  parse_snap_id (view "x7") 5 = 5.
Proof.
  split; [reflexivity|].
  exact (parse_snap_id_ignores_what_follows_the_digits "42" "x" "7" 5 eq_refl).
Defined.

(** [snapshot_drop] never refuses a [snap] parameter for its value: when
    the value does not start with a decimal digit, or is empty, the engine
    is asked to drop the snapshot 0. *)
Theorem snapshot_drop_of_an_unreadable_id_drops_snapshot_zero
    (params : session_params_t) (value : value_view) :
  snapshot_id params = Some value ->
  (forall c rest, value = view (String c rest) -> dec_digit c = None) ->
  DoAction_snapshot_drop ustore_snapshot_drop params
  = status_of (ustore_snapshot_drop 0).
Proof.
  intros Hs Hv. unfold DoAction_snapshot_drop. rewrite Hs.
  f_equal. f_equal. unfold parse_snap_id, from_chars.
  destruct value as [|[|c rest]]; try reflexivity.
  simpl. now rewrite (Hv c rest eq_refl).
Qed.

(** [collection_drop] with a [col] that [parse_u64_hex] does not read to
    its end asks the engine to drop the main collection; without a
    [drop_mode] the mode is the one that removes the collection with its
    handle. *)
Theorem collection_drop_of_an_unreadable_id_drops_the_main_collection
    (params : session_params_t) (chars : string) :
  collection_id params = Some (view chars) ->
  snd (strtoull16 chars) <> String.length chars ->
  DoAction_collection_drop ustore_collection_main_k ustore_collection_drop
    params
  = Ret (status_of (ustore_collection_drop ustore_collection_main_k
                      (drop_mode_of params))) /\
  (collection_drop_mode params = None ->
   drop_mode_of params = ustore_drop_keys_vals_handle_k).
Proof.
  intros Hc Hn. split.
  - unfold DoAction_collection_drop. rewrite Hc. unfold parse_u64_hex.
    destruct (strtoull16 chars) as [result end_]. simpl in Hn.
    apply Nat.eqb_neq in Hn. rewrite Hn. reflexivity.
  - intros Hm. unfold drop_mode_of. now rewrite Hm.
Qed.

End Dropping.

Lemma snapshot_drop_of_an_unreadable_id_drops_snapshot_zero_witness :
  Handlers.DoAction_snapshot_drop Samples.drop_succeeds
    (Samples.snap_params "latest")
  = Handlers.status_of (Samples.drop_succeeds 0%Z).
Proof.
  apply (snapshot_drop_of_an_unreadable_id_drops_snapshot_zero
           Samples.drop_succeeds (Samples.snap_params "latest")
           (Uri.view "latest") eq_refl).
  intros c rest [= <- _]. reflexivity.
Defined.

Lemma collection_drop_of_an_unreadable_id_drops_the_main_collection_witness :
  Handlers.DoAction_collection_drop 0%Z Samples.collection_drop_succeeds
    (Samples.col_params "zz")
  = Ret (Handlers.status_of
           (Samples.collection_drop_succeeds 0%Z
              (Handlers.drop_mode_of (Samples.col_params "zz")))) /\
  (Service.collection_drop_mode (Samples.col_params "zz") = None ->
   Handlers.drop_mode_of (Samples.col_params "zz")
   = Handlers.ustore_drop_keys_vals_handle_k).
Proof.
  apply (collection_drop_of_an_unreadable_id_drops_the_main_collection 0%Z
           Samples.collection_drop_succeeds (Samples.col_params "zz") "zz"
           eq_refl).
  discriminate.
Defined.

(** ** Writes *)

Section Writes.

Import Uri Sessions Service Handlers Trace.
Local Open Scope Z_scope.

Variable ustore_collection_main_k : Z.
Variable ustore_write ustore_paths_write :
  ustore_transaction_t -> ustore_arena_t -> option Z ->
  ustore_arena_t * ustore_error_t.

(** A [write] outside any transaction that finds an arena on the free stack
    passes the engine a null transaction and that arena, and puts back the
    arena the engine leaves, whether the engine reports an error or not;
    the sessions and the transaction handles are untouched. *)
Theorem DoPut_write_returns_the_arena (sessions : sessions_t)
    (client : client_id_t) (cmd : string) (params : session_params_t)
    (collection : option Z) (input_keys input_paths : Z)
    (now now' : sys_time_t) :
  session_params client cmd = Ret params ->
  is_query cmd kFlightWrite = true ->
  input_keys <> 0 ->
  collection_of ustore_collection_main_k params = Ret collection ->
  session_is_txn (session_id params) = false ->
  empty (free_arenas_ sessions) = false ->
  DoPut ustore_collection_main_k ustore_write ustore_paths_write sessions
    client cmd OK input_keys input_paths now now'
  = let written :=
      ustore_write nullptr (back (free_arenas_ sessions)) collection in
    Ret (status_of (snd written),
         with_free sessions
           (push_back (pop_back (free_arenas_ sessions)) (fst written))
           (free_txns_ sessions)).
Proof.
  intros Hp Hq Hk Hc Hid He. unfold DoPut. rewrite Hp. cbn [bind].
  rewrite Hq. unfold DoPut_branch.
  apply Z.eqb_neq in Hk. rewrite Hk, Hc. cbn [bind].
  unfold lock, request_arena. rewrite Hid, He. cbn [bind].
  cbn [lock_txn lock_arena lock_session_id].
  destruct (ustore_write nullptr (back (free_arenas_ sessions)) collection)
    as [a status].
  unfold unlock, lock_is_txn, release_arena. reflexivity.
Qed.

(** A [write] whose lock is refused is answered with the error of the
    session manager, the engine is not called, and the destructor of the
    refused lock leaves a null arena on the free stack. *)
Theorem DoPut_with_a_refused_lock (sessions sessions' : sessions_t)
    (client : client_id_t) (cmd : string) (params : session_params_t)
    (collection : option Z) (input_keys input_paths : Z)
    (now now' : sys_time_t) (l : session_lock_t) (e : error_kind * string) :
  session_params client cmd = Ret params ->
  is_query cmd kFlightWrite = true ->
  input_keys <> 0 ->
  collection_of ustore_collection_main_k params = Ret collection ->
  lock sessions (session_id params) now = Ret (sessions', l, Some e) ->
  DoPut ustore_collection_main_k ustore_write ustore_paths_write sessions
    client cmd OK input_keys input_paths now now'
  = Ret (ExecutionError (snd e),
         with_free sessions (push_back (free_arenas_ sessions) nullptr)
           (free_txns_ sessions)).
Proof.
  intros Hp Hq Hk Hc Hl. unfold DoPut. rewrite Hp. cbn [bind].
  rewrite Hq. unfold DoPut_branch.
  apply Z.eqb_neq in Hk. rewrite Hk, Hc. cbn [bind]. rewrite Hl. cbn [bind].
  apply lock_refused in Hl as [-> ->].
  destruct e as [kind message]. reflexivity.
Qed.

(** A command that is neither [write] nor [write_path] is not refused:
    [DoPut] answers with the status of the unpacking, [OK] when the batch
    was readable, and does not touch the session manager. *)
Theorem DoPut_answers_an_unknown_command (sessions : sessions_t)
    (client : client_id_t) (cmd : string) (params : session_params_t)
    (unpacked : Status) (input_keys input_paths : Z) (now now' : sys_time_t) :
  session_params client cmd = Ret params ->
  is_query cmd kFlightWrite = false ->
  is_query cmd kFlightWritePath = false ->
  DoPut ustore_collection_main_k ustore_write ustore_paths_write sessions
    client cmd unpacked input_keys input_paths now now'
  = Ret (unpacked, sessions).
Proof.
  intros Hp Hw Hwp. unfold DoPut. rewrite Hp. cbn [bind]. rewrite Hw, Hwp.
  now destruct unpacked.
Qed.

End Writes.

Lemma DoPut_write_returns_the_arena_witness :
  Handlers.DoPut 0%Z Samples.write_fails Samples.write_succeeds
    Samples.one_free_slot 7%Z "write?col=1f" Service.OK 16384%Z 0%Z 0%Z
    Examples.one_second
  = Ret (Service.ExecutionError "disk full",
         Sessions.with_free Samples.one_free_slot [12288%Z] [4097%Z]).
Proof.
  apply (DoPut_write_returns_the_arena 0%Z Samples.write_fails
           Samples.write_succeeds Samples.one_free_slot 7%Z "write?col=1f"
           (Samples.col_params "1f") (Some 31%Z) 16384%Z 0%Z 0%Z
           Examples.one_second);
    solve [reflexivity | discriminate].
Defined.

Lemma DoPut_with_a_refused_lock_witness :
  Handlers.DoPut 0%Z Samples.write_succeeds Samples.write_succeeds
    Examples.executing_then_idle 7%Z "write?col=1f" Service.OK 16384%Z 0%Z
    0%Z Examples.one_second
  = Ret (Service.ExecutionError "Too many concurrent sessions",
         Sessions.with_free Examples.executing_then_idle [Sessions.nullptr] []).
Proof.
  apply (DoPut_with_a_refused_lock 0%Z Samples.write_succeeds
           Samples.write_succeeds Examples.executing_then_idle
           Examples.executing_then_idle 7%Z "write?col=1f"
           (Samples.col_params "1f") (Some 31%Z) 16384%Z 0%Z 0%Z
           Examples.one_second
           {| Sessions.lock_session_id := Samples.nobody;
              Sessions.lock_txn := Sessions.nullptr;
              Sessions.lock_arena := Sessions.nullptr |}
           (Sessions.error_unknown_k, "Too many concurrent sessions"));
    solve [reflexivity | discriminate].
Defined.

Lemma DoPut_answers_an_unknown_command_witness :
  Handlers.DoPut 0%Z Samples.write_fails Samples.write_fails
    Samples.one_free_slot 7%Z "erase?col=1f" Service.OK 16384%Z 0%Z 0%Z
    Examples.one_second
  = Ret (Service.OK, Samples.one_free_slot).
Proof.
  apply (DoPut_answers_an_unknown_command 0%Z Samples.write_fails
           Samples.write_fails Samples.one_free_slot 7%Z "erase?col=1f"
           (Samples.col_params "1f") Service.OK 16384%Z 0%Z 0%Z
           Examples.one_second); reflexivity.
Defined.

(** ** Listings *)

Section Listings.

Import Uri Sessions Service Handlers.
Local Open Scope Z_scope.

Variable ustore_collection_list :
  ustore_transaction_t -> ustore_arena_t -> collections_found.
Variable ustore_snapshot_list : ustore_arena_t -> snapshots_found.

Ltac step H x E :=
  match type of H with
  | bind ?m _ = Ret _ =>
    destruct m as [x| |] eqn:E; cbn [bind] in H;
    [|discriminate H|discriminate H]
  end.

Lemma schema_made (b1 b2 : bool) (docs_count fields_count : Z)
    (sch : Arrow.ArrowSchema) (arr : Arrow.ArrowArray) :
  Arrow.ustore_to_arrow_schema b1 b2 docs_count fields_count
  = Ret (inr (sch, arr)) ->
  Arrow.schema_n_children sch = Arrow.to_int64 fields_count /\
  Arrow.n_children arr = Arrow.to_int64 fields_count /\
  Arrow.length arr = Arrow.to_int64 docs_count /\
  Arrow.schema_children sch = Some (repeat None (Z.to_nat fields_count)) /\
  Arrow.children arr = Some (repeat None (Z.to_nat fields_count)).
Proof.
  unfold Arrow.ustore_to_arrow_schema.
  destruct b1, b2; cbn [negb]; try discriminate.
  intros [= <- <-]. repeat split.
Qed.

Lemma column_made (ok : bool) (docs_count : Z) (field_name : string)
    (field_type : Arrow.ustore_doc_field_type_t) (v o c : Z)
    (sch : Arrow.ArrowSchema) (arr : Arrow.ArrowArray) :
  Arrow.ustore_to_arrow_column ok docs_count field_name field_type v o c
  = Ret (inr (sch, arr)) ->
  Arrow.name sch = field_name /\
  Arrow.format sch = Arrow.ustore_doc_field_type_to_arrow_format field_type /\
  Arrow.n_buffers arr = Arrow.column_n_buffers field_type /\
  Arrow.length arr = Arrow.to_int64 docs_count.
Proof.
  unfold Arrow.ustore_to_arrow_column.
  destruct ok; cbn [negb]; [|discriminate].
  destruct (Arrow.column_n_buffers field_type =? 2).
  - intros [= <- <-]. repeat split.
  - destruct (Arrow.column_n_buffers field_type <? 3); [discriminate|].
    intros [= <- <-]. repeat split.
Qed.

Lemma fill_child_made (root column filled : batch) (i : nat) :
  fill_child root i column = Ret filled ->
  exists schema_slots array_slots,
    Arrow.set_child (Arrow.schema_children (fst root)) i (fst column)
    = Ret schema_slots /\
    Arrow.set_child (Arrow.children (snd root)) i (snd column)
    = Ret array_slots /\
    filled = with_children root schema_slots array_slots.
Proof.
  unfold fill_child. intros H. step H ss E1. step H sa E2.
  injection H as <-. eauto.
Qed.

(** The batch that [list_cols] streams declares two columns and both are
    filled: the ids, of 64-bit unsigned integers with two buffers, and the
    names, of strings with three buffers, each as long as the batch. *)
Theorem list_cols_fills_both_columns (sessions sessions' : sessions_t)
    (params : session_params_t)
    (buffers_malloc_ok schema_malloc_ok cols_malloc_ok names_malloc_ok : bool)
    (now now' : sys_time_t) (sch : Arrow.ArrowSchema) (arr : Arrow.ArrowArray) :
  DoGet_list_cols ustore_collection_list sessions params buffers_malloc_ok
    schema_malloc_ok cols_malloc_ok names_malloc_ok now now'
  = Ret (OK, Some (sch, arr), sessions') ->
  exists c0 c1 a0 a1,
    Arrow.schema_n_children sch = 2 /\ Arrow.n_children arr = 2 /\
    Arrow.schema_children sch = Some [Some c0; Some c1] /\
    Arrow.children arr = Some [Some a0; Some a1] /\
    Arrow.name c0 = kArgCols /\ Arrow.format c0 = "L" /\
    Arrow.n_buffers a0 = 2 /\
    Arrow.name c1 = kArgNames /\ Arrow.format c1 = "u" /\
    Arrow.n_buffers a1 = 3 /\
    Arrow.length a0 = Arrow.length arr /\ Arrow.length a1 = Arrow.length arr.
Proof.
  unfold DoGet_list_cols. intros H.
  step H locked EL. destruct locked as [[s1 l] status].
  destruct status; [discriminate|].
  destruct (list_error _); [discriminate|].
  step H made E0. destruct made as [error|[rs ra]]; [discriminate|].
  step H cols E1. destruct cols as [error|[c0 a0]]; [discriminate|].
  step H root1 E2.
  step H names E3. destruct names as [error|[c1 a1]]; [discriminate|].
  step H root2 E4. injection H as Hr _. subst root2.
  apply schema_made in E0 as (N1 & N2 & L & S1 & S2).
  apply column_made in E1 as (Hn0 & Hf0 & Hb0 & Hl0).
  apply column_made in E3 as (Hn1 & Hf1 & Hb1 & Hl1).
  apply fill_child_made in E2 as (ss & sa & F1 & F2 & ->).
  apply fill_child_made in E4 as (ss' & sa' & G1 & G2 & E4).
  cbn [fst snd with_children Arrow.schema_children Arrow.children] in *.
  rewrite S1 in F1. rewrite S2 in F2.
  vm_compute in F1. vm_compute in F2. injection F1 as <-. injection F2 as <-.
  vm_compute in G1. vm_compute in G2. injection G1 as <-. injection G2 as <-.
  injection E4 as -> ->.
  exists c0, c1, a0, a1.
  cbn [Arrow.schema_n_children Arrow.n_children
       Arrow.schema_children Arrow.children Arrow.length].
  repeat split; auto; congruence.
Qed.

(** When [list_snaps] streams a batch, the batch declares two columns and
    only the first, the ids, is filled: the struct of the second is
    allocated and never written. *)
Theorem list_snaps_leaves_the_second_column_unfilled
    (sessions sessions' : sessions_t) (params : session_params_t)
    (buffers_malloc_ok schema_malloc_ok snaps_malloc_ok : bool)
    (now now' : sys_time_t) (sch : Arrow.ArrowSchema) (arr : Arrow.ArrowArray) :
  DoGet_list_snaps ustore_snapshot_list sessions params buffers_malloc_ok
    schema_malloc_ok snaps_malloc_ok now now'
  = Ret (OK, Some (sch, arr), sessions') ->
  exists c0 a0,
    Arrow.schema_n_children sch = 2 /\ Arrow.n_children arr = 2 /\
    Arrow.schema_children sch = Some [Some c0; None] /\
    Arrow.children arr = Some [Some a0; None] /\
    Arrow.name c0 = kArgSnaps /\ Arrow.format c0 = "L" /\
    Arrow.n_buffers a0 = 2 /\ Arrow.length a0 = Arrow.length arr.
Proof.
  unfold DoGet_list_snaps. intros H.
  step H locked EL. destruct locked as [[s1 l] status].
  destruct status; [discriminate|].
  destruct (snaps_error _); [discriminate|].
  destruct (snaps_count _ =? 0); [discriminate|].
  step H made E0. destruct made as [error|[rs ra]]; [discriminate|].
  step H snaps E1. destruct snaps as [error|[c0 a0]]; [discriminate|].
  step H root1 E2. injection H as Hr _. subst root1.
  apply schema_made in E0 as (N1 & N2 & L & S1 & S2).
  apply column_made in E1 as (Hn0 & Hf0 & Hb0 & Hl0).
  apply fill_child_made in E2 as (ss & sa & F1 & F2 & E2).
  cbn [fst snd with_children Arrow.schema_children Arrow.children] in *.
  rewrite S1 in F1. rewrite S2 in F2.
  vm_compute in F1. vm_compute in F2. injection F1 as <-. injection F2 as <-.
  injection E2 as -> ->.
  exists c0, a0.
  cbn [Arrow.schema_n_children Arrow.n_children
       Arrow.schema_children Arrow.children Arrow.length].
  repeat split; auto; congruence.
Qed.

(** A ticket that is neither [list_cols] nor [list_snaps] is not refused:
    [DoGet] answers [OK], sets no stream and does not touch the session
    manager. *)
Theorem DoGet_answers_an_unknown_ticket (sessions : sessions_t)
    (client : client_id_t) (ticket : string) (params : session_params_t)
    (buffers_malloc_ok schema_malloc_ok first_malloc_ok second_malloc_ok : bool)
    (now now' : sys_time_t) :
  session_params client ticket = Ret params ->
  is_query ticket kFlightListCols = false ->
  is_query ticket kFlightListSnap = false ->
  DoGet ustore_collection_list ustore_snapshot_list sessions client ticket
    buffers_malloc_ok schema_malloc_ok first_malloc_ok second_malloc_ok
    now now'
  = Ret (OK, None, sessions).
Proof.
  intros Hp Hc Hs. unfold DoGet. rewrite Hp. cbn [bind].
  now rewrite Hc, Hs.
Qed.

End Listings.

Lemma list_cols_fills_both_columns_witness :
  exists sch arr sessions',
    Handlers.DoGet_list_cols Samples.two_collections Samples.one_free_slot
      Samples.no_params true true true true 0%Z Examples.one_second
    = Ret (Service.OK, Some (sch, arr), sessions') /\
    exists c0 c1 a0 a1,
      Arrow.schema_n_children sch = 2%Z /\ Arrow.n_children arr = 2%Z /\
      Arrow.schema_children sch = Some [Some c0; Some c1] /\
      Arrow.children arr = Some [Some a0; Some a1] /\
      Arrow.name c0 = Handlers.kArgCols /\ Arrow.format c0 = "L" /\
      Arrow.n_buffers a0 = 2%Z /\
      Arrow.name c1 = Handlers.kArgNames /\ Arrow.format c1 = "u" /\
      Arrow.n_buffers a1 = 3%Z /\
      Arrow.length a0 = Arrow.length arr /\
      Arrow.length a1 = Arrow.length arr.
Proof.
  eexists _, _, _. split; [reflexivity|].
  eapply (list_cols_fills_both_columns Samples.two_collections
           Samples.one_free_slot _ Samples.no_params true true true true 0%Z
           Examples.one_second _ _).
  reflexivity.
Defined.

Lemma list_snaps_leaves_the_second_column_unfilled_witness :
  exists sch arr sessions',
    Handlers.DoGet_list_snaps Samples.three_snapshots Samples.one_free_slot
      Samples.no_params true true true 0%Z Examples.one_second
    = Ret (Service.OK, Some (sch, arr), sessions') /\
    exists c0 a0,
      Arrow.schema_n_children sch = 2%Z /\ Arrow.n_children arr = 2%Z /\
      Arrow.schema_children sch = Some [Some c0; None] /\
      Arrow.children arr = Some [Some a0; None] /\
      Arrow.name c0 = Handlers.kArgSnaps /\ Arrow.format c0 = "L" /\
      Arrow.n_buffers a0 = 2%Z /\ Arrow.length a0 = Arrow.length arr.
Proof.
  eexists _, _, _. split; [reflexivity|].
  eapply (list_snaps_leaves_the_second_column_unfilled
            Samples.three_snapshots
           Samples.one_free_slot _ Samples.no_params true true true 0%Z
           Examples.one_second _ _).
  reflexivity.
Defined.

Lemma DoGet_answers_an_unknown_ticket_witness :
  Handlers.DoGet Samples.two_collections Samples.three_snapshots
    Samples.one_free_slot 7%Z "list_keys?col=1f" true true true true 0%Z
    Examples.one_second
  = Ret (Service.OK, None, Samples.one_free_slot).
Proof.
  apply (DoGet_answers_an_unknown_ticket Samples.two_collections
           Samples.three_snapshots Samples.one_free_slot 7%Z
           "list_keys?col=1f" (Samples.col_params "1f") true true true true
           0%Z Examples.one_second); reflexivity.
Defined.

(** ** A transaction from its beginning to its commit *)

Section BeginCommit.

Import Uri Sessions Service.
Local Open Scope Z_scope.

Variable ustore_transaction_init :
  ustore_transaction_t -> ustore_transaction_t * ustore_error_t.
Variable ustore_transaction_commit : ustore_transaction_t -> ustore_error_t.

(** A [txn_begin] that finds both a free transaction handle and a free
    arena, followed by the [txn_commit] of the same transaction, leaves the
    session manager as it was before the two, but for the transaction
    handle on top of its free stack, which is now the one the engine
    initialised; and so it is whether the commit succeeds or not. *)
Theorem txn_begin_then_txn_commit (sessions : sessions_t)
    (params : session_params_t) (value : value_view)
    (handle : ustore_transaction_t) (random : Z)
    (now_pop now now' : sys_time_t) :
  transaction_id params = Some value ->
  find (client_to_txn_ sessions) (session_id params) = None ->
  empty (free_txns_ sessions) = false ->
  empty (free_arenas_ sessions) = false ->
  ustore_transaction_init (back (free_txns_ sessions)) = (handle, None) ->
  exists begun,
    DoAction_txn_begin ustore_transaction_init sessions params random
      now_pop now
    = Ret (OK, Some (txn_id (session_id params)), begun) /\
    DoAction_txn_commit ustore_transaction_commit begun params now'
    = (match ustore_transaction_commit handle with
       | Some (_, message) => ExecutionError message
       | None => OK
       end,
       with_free sessions (free_arenas_ sessions)
         (push_back (pop_back (free_txns_ sessions)) handle)).
Proof.
  intros Ht Hf Et Ea Hi.
  unfold DoAction_txn_begin. rewrite Ht.
  unfold request_txn. rewrite Hf, Et, Ea. cbn [orb bind].
  cbn [txn arena last_access executing]. rewrite Hi.
  eexists. split; [reflexivity|].
  unfold DoAction_txn_commit. rewrite Ht.
  unfold hold_txn, submit, insert_or_assign, continue_txn.
  cbn [client_to_txn_ with_map with_free]. rewrite Hf.
  cbn [find]. rewrite session_id_eqb_refl.
  cbn [set_executing executing txn arena last_access set_last_access
       assign client_to_txn_ with_map].
  assert (R : forall status : Status,
            (status,
             release_txn
               (with_map
                  (with_map
                     (with_free sessions (pop_back (free_arenas_ sessions))
                        (pop_back (free_txns_ sessions)))
                     ((session_id params,
                       {| txn := handle; arena := back (free_arenas_ sessions);
                          last_access := now; executing := false |})
                      :: client_to_txn_ sessions))
                  ((session_id params,
                    {| txn := handle; arena := back (free_arenas_ sessions);
                       last_access := now'; executing := true |})
                   :: client_to_txn_ sessions))
               (session_id params))
            = (status,
               with_free sessions (free_arenas_ sessions)
                 (push_back (pop_back (free_txns_ sessions)) handle))).
  { intros status. f_equal. unfold release_txn.
    cbn [client_to_txn_ with_map find]. rewrite session_id_eqb_refl.
    cbn [erase free_arenas_ free_txns_ with_free with_map arena txn
         milliseconds_timeout].
    rewrite push_back_pop_back by assumption.
    unfold with_free, with_map. reflexivity. }
  destruct (ustore_transaction_commit handle) as [[kind message]|];
    cbn [message_of]; apply R.
Qed.

(** Once a transaction is begun under an id that the client sent, a second
    [txn_begin] under the same id is refused and changes nothing. *)
Theorem txn_begin_twice_is_refused (sessions begun : sessions_t)
    (params : session_params_t) (value : value_view)
    (scalar : option txn_id_t) (random random' : Z)
    (now_pop now now_pop' now' : sys_time_t) :
  transaction_id params = Some value ->
  DoAction_txn_begin ustore_transaction_init sessions params random
    now_pop now
  = Ret (OK, scalar, begun) ->
  DoAction_txn_begin ustore_transaction_init begun params random'
    now_pop' now'
  = Ret (ExecutionError
           "Such transaction is already running, just continue using it.",
         None, begun).
Proof.
  intros Ht. unfold DoAction_txn_begin. rewrite Ht.
  destruct (request_txn sessions (session_id params) now_pop now)
    as [[[s1 r] status]| |]; cbn [bind]; [|discriminate|discriminate].
  destruct status; [discriminate|].
  destruct (ustore_transaction_init (txn r)) as [handle [e|]]; [discriminate|].
  intros [= _ <-].
  unfold request_txn, hold_txn, submit. cbn [client_to_txn_ with_map].
  destruct (find_insert_or_assign (client_to_txn_ s1) (session_id params)
              (set_executing
                 {| txn := handle; arena := arena r;
                    last_access := last_access r; executing := executing r |}
                 false)) as [it ->].
  reflexivity.
Qed.

End BeginCommit.

Lemma txn_begin_then_txn_commit_witness :
  exists begun,
    Service.DoAction_txn_begin Examples.init_succeeds Samples.one_free_slot
      (Examples.txn_params Examples.bob "2") 0%Z 0%Z Examples.one_second
    = Ret (Service.OK, Some 2%Z, begun) /\
    Service.DoAction_txn_commit Examples.commit_fails begun
      (Examples.txn_params Examples.bob "2") (2 * Examples.one_second)%Z
    = (Service.ExecutionError "write conflict",
       Sessions.with_free Samples.one_free_slot [8193%Z] [4096%Z]).
Proof.
  apply (txn_begin_then_txn_commit Examples.init_succeeds
           Examples.commit_fails Samples.one_free_slot
           (Examples.txn_params Examples.bob "2") (Uri.view "2") 4096%Z 0%Z
           0%Z Examples.one_second (2 * Examples.one_second)%Z);
    reflexivity.
Defined.

Lemma txn_begin_twice_is_refused_witness :
  exists begun,
    Service.DoAction_txn_begin Examples.init_succeeds Samples.one_free_slot
      (Examples.txn_params Examples.bob "2") 0%Z 0%Z Examples.one_second
    = Ret (Service.OK, Some 2%Z, begun) /\
    Service.DoAction_txn_begin Examples.init_succeeds begun
      (Examples.txn_params Examples.bob "2") 1%Z 0%Z
      (2 * Examples.one_second)%Z
    = Ret (Service.ExecutionError
             "Such transaction is already running, just continue using it.",
           None, begun).
Proof.
  eexists. split; [reflexivity|].
  eapply (txn_begin_twice_is_refused Examples.init_succeeds
            Samples.one_free_slot _ (Examples.txn_params Examples.bob "2")
            (Uri.view "2") (Some 2%Z) 0%Z 1%Z 0%Z Examples.one_second 0%Z
            (2 * Examples.one_second)%Z); reflexivity.
Defined.

(** ** The structs that the filling functions produce *)

Section ArrowStructs.

Import Arrow.
Local Open Scope Z_scope.

Variable load_length : Z -> Z -> Z.

(** Every column that [ustore_to_arrow_column] produces is consistent: it
    declares as many buffers as its block holds, the validities come first
    and the contents last, the format string is not empty, and it has no
    children.  A column of the type null, or of a type the function does
    not know, is never produced. *)
Theorem column_declares_the_buffers_it_holds (malloc_ok : bool)
    (docs_count : Z) (field_name : string)
    (field_type : ustore_doc_field_type_t) (validities offsets contents : Z)
    (schema : ArrowSchema) (array : ArrowArray) :
  ustore_to_arrow_column malloc_ok docs_count field_name field_type
    validities offsets contents = Ret (inr (schema, array)) ->
  n_buffers array = Z.of_nat (List.length (buffers array)) /\
  hd NULL (buffers array) = validities /\
  last (buffers array) NULL = contents /\
  String.length (format schema) <> O /\
  field_type <> ustore_doc_field_null_k /\
  field_type <> ustore_doc_field_other_k /\
  n_children array = 0 /\ children array = None /\
  schema_n_children schema = 0 /\ schema_children schema = None.
Proof.
  unfold ustore_to_arrow_column.
  destruct malloc_ok; cbn [negb]; [|discriminate].
  destruct field_type; cbn [column_n_buffers];
    cbv [Z.eqb Z.ltb Z.compare Pos.compare Pos.compare_cont];
    try discriminate; intros [= <- <-]; cbn;
    repeat split; discriminate.
Qed.

Lemma column_declares_the_buffers_it_holds_witness :
  exists schema array,
    ustore_to_arrow_column true 3 "names" ustore_doc_field_str_k 0 20480 24576
    = Ret (inr (schema, array)) /\
    n_buffers array = Z.of_nat (List.length (buffers array)) /\
    hd NULL (buffers array) = 0 /\
    last (buffers array) NULL = 24576 /\
    String.length (format schema) <> O /\
    ustore_doc_field_str_k <> ustore_doc_field_null_k /\
    ustore_doc_field_str_k <> ustore_doc_field_other_k /\
    n_children array = 0 /\ children array = None /\
    schema_n_children schema = 0 /\ schema_children schema = None.
Proof.
  eexists _, _. split; [reflexivity|].
  eapply (column_declares_the_buffers_it_holds true 3 "names"
            ustore_doc_field_str_k 0 20480 24576).
  reflexivity.
Defined.

(** Every list column that [ustore_to_arrow_list] produces has the format
    [+l], the two buffers of validities and offsets, and one child, which
    is filled: the column [chunks] of the element type, never nullable,
    whose length is the last of the offsets. *)
Theorem list_column_has_one_filled_child
    (buffers_malloc_ok malloc_ok child_malloc_ok : bool)
    (docs_count : Z) (field_name : string)
    (field_type : ustore_doc_field_type_t) (validities offsets contents : Z)
    (schema : ArrowSchema) (array : ArrowArray) :
  ustore_to_arrow_list load_length buffers_malloc_ok malloc_ok child_malloc_ok
    docs_count field_name field_type validities offsets contents
  = Ret (inr (schema, array)) ->
  format schema = "+l" /\ name schema = field_name /\
  n_buffers array = 2 /\ buffers array = [validities; offsets] /\
  schema_n_children schema = 1 /\ n_children array = 1 /\
  exists child_schema child_array,
    schema_children schema = Some [Some child_schema] /\
    children array = Some [Some child_array] /\
    name child_schema = "chunks" /\
    format child_schema = ustore_doc_field_type_to_arrow_format field_type /\
    flags child_schema = 0 /\ null_count child_array = 0 /\
    length child_array = to_int64 (load_length offsets docs_count) /\
    last (buffers child_array) NULL = contents.
Proof.
  unfold ustore_to_arrow_list, ustore_to_arrow_schema.
  destruct buffers_malloc_ok, malloc_ok; cbn [negb bind]; try discriminate.
  unfold ustore_to_arrow_column.
  destruct child_malloc_ok; cbn [negb bind]; [|discriminate].
  destruct field_type; cbn [column_n_buffers];
    cbv [Z.eqb Z.ltb Z.compare Pos.compare Pos.compare_cont];
    cbn [bind]; try discriminate; intros [= <- <-]; cbn;
    repeat split; eexists _, _; repeat split.
Qed.

End ArrowStructs.

Lemma list_column_has_one_filled_child_witness :
  exists schema array,
    Arrow.ustore_to_arrow_list Examples.three_at_index_one true true true
      1%Z "keys" Arrow.ustore_doc_field_i64_k 0%Z 20480%Z 16384%Z
    = Ret (inr (schema, array)) /\
    Arrow.format schema = "+l" /\ Arrow.name schema = "keys" /\
    Arrow.n_buffers array = 2%Z /\ Arrow.buffers array = [0%Z; 20480%Z] /\
    Arrow.schema_n_children schema = 1%Z /\ Arrow.n_children array = 1%Z /\
    exists child_schema child_array,
      Arrow.schema_children schema = Some [Some child_schema] /\
      Arrow.children array = Some [Some child_array] /\
      Arrow.name child_schema = "chunks" /\
      Arrow.format child_schema = "l" /\
      Arrow.flags child_schema = 0%Z /\ Arrow.null_count child_array = 0%Z /\
      Arrow.length child_array = 3%Z /\
      last (Arrow.buffers child_array) Arrow.NULL = 16384%Z.
Proof.
  eexists _, _. split; [reflexivity|].
  eapply (list_column_has_one_filled_child Examples.three_at_index_one true
            true true 1%Z "keys" Arrow.ustore_doc_field_i64_k 0%Z 20480%Z
            16384%Z).
  reflexivity.
Defined.

(** ** The validity bitmap *)

Section Presence.

Import Bitmap.
Local Open Scope Z_scope.

Lemma land_bit (octet k : Z) :
  0 <= k ->
  (Z.land octet (2 ^ k) =? 0) = negb (Z.testbit octet k).
Proof.
  intros Hk. destruct (Z.testbit octet k) eqn:T; cbn [negb].
  - apply Z.eqb_neq. intros E.
    apply (f_equal (fun z => Z.testbit z k)) in E.
    rewrite Z.land_spec, T, Z.pow2_bits_true, Z.bits_0 in E by assumption.
    discriminate.
  - apply Z.eqb_eq. apply Z.bits_inj'. intros n Hn.
    rewrite Z.land_spec, Z.bits_0, Z.pow2_bits_eqb by assumption.
    destruct (Z.eqb_spec k n) as [->|N]; [now rewrite T|].
    apply andb_false_r.
Qed.

Lemma testbit_little_endian (octets : list Z) :
  Forall (fun octet => 0 <= octet < 256) octets ->
  forall idx octet,
    0 <= idx ->
    nth_error octets (Z.to_nat (idx / 8)) = Some octet ->
    Z.testbit (little_endian octets) idx = Z.testbit octet (idx mod 8).
Proof.
  induction 1 as [|b rest Hb Hrest IH]; intros idx octet Hidx Hn.
  - now destruct (Z.to_nat (idx / 8)).
  - cbn [little_endian].
    destruct (Z.ltb_spec idx 8) as [Lt|Ge].
    + rewrite Z.div_small in Hn by lia. simpl in Hn. injection Hn as <-.
      rewrite Z.mod_small by lia.
      rewrite <- (Z.mod_pow2_bits_low (b + 256 * little_endian rest) 8 idx)
        by lia.
      f_equal. change (2 ^ 8) with 256.
      replace (b + 256 * little_endian rest)
        with (b + little_endian rest * 256) by lia.
      rewrite Z.mod_add by lia. apply Z.mod_small; lia.
    + assert (D : idx / 8 = (idx - 8) / 8 + 1).
      { replace idx with ((idx - 8) + 1 * 8) at 1 by lia.
        now rewrite Z.div_add by lia. }
      assert (M : idx mod 8 = (idx - 8) mod 8).
      { replace idx with ((idx - 8) + 1 * 8) at 1 by lia.
        now rewrite Z.mod_add by lia. }
      assert (0 <= (idx - 8) / 8) by (apply Z.div_pos; lia).
      rewrite D, Z2Nat.inj_add in Hn by lia.
      rewrite Nat.add_comm in Hn. simpl in Hn.
      rewrite M, <- (IH (idx - 8) octet) by (assumption || lia).
      replace idx with ((idx - 8) + 8) at 1 by lia.
      rewrite <- Z.div_pow2_bits by lia.
      f_equal. change (2 ^ 8) with 256.
      replace (b + 256 * little_endian rest)
        with (little_endian rest * 256 + b) by lia.
      rewrite Z.div_add_l by lia.
      rewrite (Z.div_small b 256) by lia. lia.
Qed.

(** [check_presence] reads the bit [idx] of the bitmap, counting from the
    least significant bit of the first octet: within the bitmap it returns
    that bit of the number the octets spell in little-endian order. *)
Theorem check_presence_reads_the_bit (octets : list Z) (idx : Z) :
  Forall (fun octet => 0 <= octet < 256) octets ->
  0 <= idx < CHAR_BIT * Z.of_nat (List.length octets) ->
  check_presence octets idx = Ret (Z.testbit (little_endian octets) idx).
Proof.
  intros Ho [Hl Hu]. unfold check_presence, CHAR_BIT in *.
  assert (Hd : (Z.to_nat (idx / 8) < List.length octets)%nat).
  { apply Nat2Z.inj_lt. rewrite Z2Nat.id by (apply Z.div_pos; lia).
    apply Z.div_lt_upper_bound; lia. }
  destruct (nth_error octets (Z.to_nat (idx / 8))) as [octet|] eqn:E.
  - f_equal. rewrite (testbit_little_endian octets Ho idx octet Hl E).
    pose proof (Z.mod_pos_bound idx 8 ltac:(lia)) as B.
    rewrite Z.shiftl_1_l.
    rewrite (Z.mod_small (2 ^ (idx mod 8)) 256).
    + rewrite land_bit by lia. apply negb_involutive.
    + split; [apply Z.pow_nonneg; lia|].
      change 256 with (2 ^ 8). apply Z.pow_lt_mono_r; lia.
  - apply nth_error_None in E. lia.
Qed.

Lemma check_presence_reads_the_bit_witness :
  check_presence [5; 128] 15 = Ret (Z.testbit (little_endian [5; 128]) 15).
Proof.
  apply (check_presence_reads_the_bit [5; 128] 15).
  - repeat constructor; lia.
  - cbn. lia.
Defined.

End Presence.
